(** * Funds transfer over a retrying transactional store

    A shallow embedding of [main.go] (package [main] of the GORM example
    application) together with the parts of its collaborators that the
    program's behaviour depends on: Go's [int] arithmetic, [uuid.New],
    [math/rand.Intn], the GORM calls [First], [Save], [Create], [Find] and
    [Where(..).Delete], and the retry executor [crdbgorm.ExecuteTx]. *)

From stdpp Require Import gmap list fin_maps.
From Stdlib Require Import ZArith NArith Lia.

Local Open Scope Z_scope.

(** ** Go's [int]: on the 64-bit platforms the program is built for, a
    64-bit two's complement number whose arithmetic wraps around silently *)

Module GoInt.

Definition int_bits : Z := 64.
Definition max_int : Z := 2 ^ (int_bits - 1) - 1.
Definition min_int : Z := - 2 ^ (int_bits - 1).

(** The value of an [int] expression whose mathematical result is [z]. *)
Definition wrap (z : Z) : Z :=
  (z + 2 ^ (int_bits - 1)) mod 2 ^ int_bits - 2 ^ (int_bits - 1).

Definition add (a b : Z) : Z := wrap (a + b).
Definition sub (a b : Z) : Z := wrap (a - b).

Definition in_range (z : Z) : Prop := min_int <= z <= max_int.

End GoInt.

(** ** Identifiers and rows *)

(** [uuid.UUID] is a [[16]byte]; it is kept as the 128-bit number the bytes
    spell in big-endian order.  [uuid.Nil] is the all-zero array. *)
Definition UUID : Type := N.

Definition uuid_Nil : UUID := 0%N.

(** [uuid.New]: 16 random bytes with the version nibble of byte 6 forced to
    4 and the two top bits of byte 8 forced to binary 10. *)
Definition uuid_clear_mask : N := N.lor (N.shiftl 15 76) (N.shiftl 3 62).
Definition uuid_v4_bits : N := N.lor (N.shiftl 4 76) (N.shiftl 2 62).

Definition uuid_New (entropy : N) : UUID :=
  N.lor (N.ldiff (entropy mod 2 ^ 128)%N uuid_clear_mask) uuid_v4_bits.

(** [type Account struct { ID uuid.UUID; Balance int }] *)
Record Account : Type := mkAccount { ID : UUID; Balance : Z }.

(** The zero value of [Account], as declared by [var fromAccount Account]. *)
Definition zeroAccount : Account := {| ID := uuid_Nil; Balance := 0 |}.

(** [const transferAmt int = 100] *)
Definition transferAmt : Z := 100.

(** ** Errors *)

(** The error values the program can see.  Go's [error] interface value is
    [option Err], with [None] for [nil]. *)
Inductive Err : Type :=
  | ErrLowBalance (id : UUID) (balance amount : Z)
      (* fmt.Errorf("account %s balance %d is lower than transfer amount %d") *)
  | ErrRecordNotFound      (* gorm.ErrRecordNotFound *)
  | ErrDuplicateKey        (* SQLSTATE 23505, unique_violation *)
  | ErrSerialization       (* SQLSTATE 40001, the store asks for a retry *)
  | ErrTxDone              (* sql.ErrTxDone: the transaction is over *)
  | ErrUnavailable         (* any other failure reported by the store *)
  | ErrRetryExhausted.     (* the executor gave up retrying *)

Definition error : Type := option Err.

Definition is_low_balance (e : error) : bool :=
  match e with Some (ErrLowBalance _ _ _) => true | _ => false end.

Definition is_not_found (e : error) : bool :=
  match e with Some ErrRecordNotFound => true | _ => false end.

(** The classification function of the retry executor. *)
Definition retryable (e : Err) : bool :=
  match e with ErrSerialization => true | _ => false end.

(** ** The store and the process state *)

(** A [*gorm.DB] value: either the connection the program opened ([db] in
    [main]) or the handle of the transaction the executor has open ([tx]). *)
Inductive handle : Type := DBConn | DBTx.

Inductive Stmt : Type :=
  | SFirst (id : UUID)
  | SSave (a : Account)
  | SCreate (a : Account)
  | SFind
  | SDelete (ids : list UUID).

Inductive Event : Type :=
  | EvStmt (h : handle) (s : Stmt)
  | EvBegin
  | EvCommit
  | EvRollback
  | EvPrintRows (rows : list Account)
  | EvPrintErr (e : Err).

(** [table] holds the committed rows of [accounts], keyed by the primary key
    [id].  [pending] is the write set of the open transaction, if any: [Some
    v] for a row written, [None] for a row deleted.  [acctIDs] is the
    program's global of that name.  [entropy] and [cursor] stand for the
    random sources behind [uuid.New], [rand.Intn] and the column default;
    [faults] lists what the store will answer to the coming calls ([Some e]:
    the call fails with [e]); an empty list is a store that answers every
    call.  [log] records what the process did, oldest first. *)
Record World : Type := mkWorld {
  table : gmap UUID Z;
  pending : option (gmap UUID (option Z));
  acctIDs : list UUID;
  entropy : nat → N;
  cursor : nat;
  faults : list error;
  log : list Event
}.

Definition set_table (t : gmap UUID Z) (w : World) : World :=
  mkWorld t (pending w) (acctIDs w) (entropy w) (cursor w) (faults w) (log w).
Definition set_pending (p : option (gmap UUID (option Z))) (w : World) : World :=
  mkWorld (table w) p (acctIDs w) (entropy w) (cursor w) (faults w) (log w).
Definition set_acctIDs (l : list UUID) (w : World) : World :=
  mkWorld (table w) (pending w) l (entropy w) (cursor w) (faults w) (log w).
Definition set_cursor (c : nat) (w : World) : World :=
  mkWorld (table w) (pending w) (acctIDs w) (entropy w) c (faults w) (log w).
Definition set_faults (f : list error) (w : World) : World :=
  mkWorld (table w) (pending w) (acctIDs w) (entropy w) (cursor w) f (log w).
Definition set_log (l : list Event) (w : World) : World :=
  mkWorld (table w) (pending w) (acctIDs w) (entropy w) (cursor w) (faults w) l.

(** Rows as a transaction sees them: its own writes over the committed
    rows. *)
Definition overlay (d : gmap UUID (option Z)) (t : gmap UUID Z) : gmap UUID Z :=
  merge (λ od ot, match od with Some ov => ov | None => ot end) d t.

(** A handle can be used unless it is the handle of a transaction that is
    over. *)
Definition usable (h : handle) (w : World) : bool :=
  match h with
  | DBConn => true
  | DBTx => match pending w with Some _ => true | None => false end
  end.

(** The rows a statement issued on [h] reads; the handle of a transaction
    that is over reads nothing. *)
Definition view (h : handle) (w : World) : gmap UUID Z :=
  match h with
  | DBConn => table w
  | DBTx => match pending w with
            | Some d => overlay d (table w)
            | None => ∅
            end
  end.

Definition put_row (h : handle) (id : UUID) (v : Z) (w : World) : World :=
  match h with
  | DBConn => set_table (<[id := v]> (table w)) w
  | DBTx => match pending w with
            | Some d => set_pending (Some (<[id := Some v]> d)) w
            | None => w
            end
  end.

Definition del_row (h : handle) (id : UUID) (w : World) : World :=
  match h with
  | DBConn => set_table (delete id (table w)) w
  | DBTx => match pending w with
            | Some d => set_pending (Some (<[id := None]> d)) w
            | None => w
            end
  end.

(** A store that answers every coming call. *)
Definition healthy (w : World) : Prop := faults w = [].

(** ** A state monad over [World] *)

Definition M (A : Type) : Type := World → A * World.

Definition ret {A} (a : A) : M A := λ w, (a, w).
Definition bind {A B} (m : M A) (k : A → M B) : M B :=
  λ w, let '(a, w') := m w in k a w'.
Definition get {A} (f : World → A) : M A := λ w, (f w, w).
Definition modify (f : World → World) : M unit := λ w, (tt, f w).

Declare Scope go_scope.
Delimit Scope go_scope with go.
Notation "x <- m ;; k" := (bind m (λ x, k))
  (at level 100, m at next level, right associativity) : go_scope.
Notation "m ;;; k" := (bind m (λ _, k))
  (at level 100, right associativity) : go_scope.
Local Open Scope go_scope.

Definition emit (e : Event) : M unit := modify (λ w, set_log (log w ++ [e]) w).

(** The next random word. *)
Definition draw : M N :=
  λ w, (entropy w (cursor w), set_cursor (S (cursor w)) w).

(** [rand.Intn(n)]: a number in the half-open interval from 0 to [n]. *)
Definition rand_Intn (n : Z) : M Z :=
  r <- draw ;; ret (Z.of_N r mod n).

(** What the store answers to the next call. *)
Definition next_fault : M error :=
  λ w, match faults w with
       | [] => (None, w)
       | f :: fs => (f, set_faults fs w)
       end.

(** Every call logs itself, takes the store's answer, and needs a handle that
    is still usable. *)
Definition enter (h : handle) (s : Stmt) : M error :=
  emit (EvStmt h s) ;;;
  f <- next_fault ;;
  match f with
  | Some e => ret (Some e)
  | None => ok <- get (usable h) ;;
            if ok : bool then ret None else ret (Some ErrTxDone)
  end.

(** ** The GORM calls the program makes

    GORM is a library outside this repository; each call is modelled by what
    its documentation promises for the [Account] model, whose field [ID] is
    the primary key and carries the column default [uuid_generate_v4()]. *)

(** [db.First(&dest, id)] with a zero-valued [dest]: the row whose primary
    key is [id] is loaded into [dest]; when there is none the call reports
    [ErrRecordNotFound] and leaves [dest] as it was. *)
Definition First (db : handle) (dest : Account) (id : UUID) : M (Account * error) :=
  e <- enter db (SFirst id) ;;
  match e with
  | Some e => ret (dest, Some e)
  | None =>
      rows <- get (view db) ;;
      match rows !! id with
      | Some b => ret ({| ID := id; Balance := b |}, None)
      | None => ret (dest, Some ErrRecordNotFound)
      end
  end.

(** [db.Create(&a)]: an INSERT.  A zero primary key is left to the column
    default, which draws a fresh version-4 UUID; a key that is already there
    is a unique violation. *)
Definition Create (db : handle) (a : Account) : M error :=
  e <- enter db (SCreate a) ;;
  match e with
  | Some e => ret (Some e)
  | None =>
      id <- (if N.eqb (ID a) uuid_Nil
             then r <- draw ;; ret (uuid_New r)
             else ret (ID a)) ;;
      rows <- get (view db) ;;
      match rows !! id with
      | Some _ => ret (Some ErrDuplicateKey)
      | None => modify (put_row db id (Balance a)) ;;; ret None
      end
  end.

(** [db.Save(&a)]: with a zero primary key it is [Create]; otherwise it
    updates all fields of the row with that key and, when no row was
    affected, inserts it. *)
Definition Save (db : handle) (a : Account) : M error :=
  if N.eqb (ID a) uuid_Nil then Create db a
  else
    e <- enter db (SSave a) ;;
    match e with
    | Some e => ret (Some e)
    | None => modify (put_row db (ID a) (Balance a)) ;;; ret None
    end.

(** [db.Find(&accounts)]: all rows. *)
Definition Find (db : handle) : M (list Account * error) :=
  e <- enter db SFind ;;
  match e with
  | Some e => ret ([], Some e)
  | None =>
      rows <- get (view db) ;;
      ret ((λ r : UUID * Z, {| ID := r.1; Balance := r.2 |}) <$> map_to_list rows, None)
  end.

(** [db.Where("id IN ?", ids).Delete(Account{})]: the rows whose key is in
    [ids] go; an empty [ids] matches nothing. *)
Definition Delete (db : handle) (ids : list UUID) : M error :=
  e <- enter db (SDelete ids) ;;
  match e with
  | Some e => ret (Some e)
  | None => modify (λ w, foldr (del_row db) w ids) ;;; ret None
  end.

(** ** The program: [main.go] *)

(** [func transferFunds(db *gorm.DB, fromID, toID uuid.UUID, amount int) error].
    The results of the two [First] calls are dropped, as in the source. *)
Definition transferFunds (db : handle) (fromID toID : UUID) (amount : Z) : M error :=
  let fromAccount := zeroAccount in
  let toAccount := zeroAccount in
  r1 <- First db fromAccount fromID ;;
  let fromAccount := r1.1 in
  r2 <- First db toAccount toID ;;
  let toAccount := r2.1 in
  if Balance fromAccount <? amount then
    ret (Some (ErrLowBalance (ID fromAccount) (Balance fromAccount) amount))
  else
    let fromAccount :=
      {| ID := ID fromAccount; Balance := GoInt.sub (Balance fromAccount) amount |} in
    let toAccount :=
      {| ID := ID toAccount; Balance := GoInt.add (Balance toAccount) amount |} in
    err <- Save db fromAccount ;;
    match err with
    | Some e => ret (Some e)
    | None =>
        err <- Save db toAccount ;;
        match err with
        | Some e => ret (Some e)
        | None => ret None
        end
    end.

(** The body of the loop of [insertRows], run [n] times or until a [Create]
    fails. *)
Fixpoint insertRows_loop (db : handle) (n : nat) : M error :=
  match n with
  | O => ret None
  | S n' =>
      r <- draw ;;
      let newID := uuid_New r in
      k <- rand_Intn 10000 ;;
      let newBalance := GoInt.add k transferAmt in
      err <- Create db {| ID := newID; Balance := newBalance |} ;;
      match err with
      | Some e => ret (Some e)
      | None =>
          modify (λ w, set_acctIDs (acctIDs w ++ [newID]) w) ;;;
          insertRows_loop db n'
      end
  end.

(** [func insertRows(db *gorm.DB, numRows int) error]: [i] runs from 0 while
    [i < numRows]. *)
Definition insertRows (db : handle) (numRows : Z) : M error :=
  insertRows_loop db (Z.to_nat numRows).

(** [func printBalances(db *gorm.DB)] *)
Definition printBalances (db : handle) : M unit :=
  r <- Find db ;;
  emit (EvPrintRows r.1).

(** [func deleteAccounts(db *gorm.DB) error] *)
Definition deleteAccounts (db : handle) : M error :=
  ids <- get acctIDs ;;
  err <- Delete db ids ;;
  match err with
  | Some e => ret (Some e)
  | None => ret None
  end.

(** ** The retry executor *)

(** Modelled from the spec: the transaction boundary of section 6 (begin,
    commit, rollback), which the store provides and the sources do not
    contain.  [begin] opens a transaction with an empty write set. *)
Definition begin : M unit :=
  emit EvBegin ;;; modify (set_pending (Some ∅)).

(** Modelled from the spec: rollback drops the write set. *)
Definition rollback : M unit :=
  emit EvRollback ;;; modify (set_pending None).

(** Modelled from the spec: a commit takes the store's answer like any call
    and, when the store agrees, applies the write set to the committed rows;
    a transaction whose commit fails is over and leaves no trace. *)
Definition commit : M error :=
  emit EvCommit ;;;
  f <- next_fault ;;
  p <- get pending ;;
  modify (set_pending None) ;;;
  match f, p with
  | Some e, _ => ret (Some e)
  | None, None => ret (Some ErrTxDone)
  | None, Some d => modify (λ w, set_table (overlay d (table w)) w) ;;; ret None
  end.

(** Modelled from the spec: one attempt of the executor of section 4.2, a
    fresh transaction, the unit of work on its handle, then commit on success
    and rollback on failure. *)
Definition attempt (f : handle → M error) : M error :=
  begin ;;;
  err <- f DBTx ;;
  match err with
  | None => commit
  | Some e => rollback ;;; ret (Some e)
  end.

(** Modelled from the spec: [crdbgorm.ExecuteTx] lives in the cockroach-go
    module, which is not part of the sources.  Section 4.2 of the
    specification: the unit of work runs in a transaction; success commits;
    an error of [f] or of the commit that is classified retryable rolls back
    and runs [f] again in a fresh transaction; any other error is returned at
    once; retries are bounded, and when the bound is used up the conflict is
    returned as [ErrRetryExhausted].  [retries] is the number of attempts
    left after the coming one. *)
Fixpoint run_attempts (retries : nat) (f : handle → M error) : M error :=
  err <- attempt f ;;
  match err with
  | None => ret None
  | Some e =>
      if retryable e then
        match retries with
        | O => ret (Some ErrRetryExhausted)
        | S n => run_attempts n f
        end
      else ret (Some e)
  end.

(** Modelled from the spec: [crdbgorm.ExecuteTx(ctx, db, nil, fn)] with the
    background context, which is never cancelled.  [budget] is the finite
    retry budget the specification demands and leaves to the implementer. *)
Definition ExecuteTx (budget : nat) (fn : handle → M error) : M error :=
  run_attempts budget fn.

(** ** [func main()] *)

(** How the process ends: it returns from [main], or an index expression
    panics. *)
Inductive outcome : Type := Exited | Panicked.

(** The unit of work of lines 115-119.  It ignores [tx] and calls
    [insertRows] on [db]. *)
Definition seedUnit (db : handle) : handle → M error :=
  λ tx, insertRows db 5.

(** The unit of work of lines 141-145. *)
Definition transferUnit (fromID toID : UUID) : handle → M error :=
  λ tx, transferFunds tx fromID toID transferAmt.

Definition report (err : error) : M unit :=
  match err with
  | Some e => emit (EvPrintErr e)
  | None => ret tt
  end.

(** [main] from the point where the connection [db] is open and the table
    exists. *)
Definition main (budget : nat) : M outcome :=
  let db := DBConn in
  err <- ExecuteTx budget (seedUnit db) ;;
  report err ;;;
  printBalances db ;;;
  ids <- get acctIDs ;;
  match ids !! 0%nat with
  | None => ret Panicked
  | Some fromID =>
      k <- rand_Intn (Z.of_nat (length ids)) ;;
      match ids !! Z.to_nat k with
      | None => ret Panicked
      | Some toID =>
          err <- ExecuteTx budget (transferUnit fromID toID) ;;
          report err ;;;
          printBalances db ;;;
          deleteAccounts db ;;;
          ret Exited
      end
  end.

(** ** Sample worlds *)

Definition world0 (rows : gmap UUID Z) : World :=
  {| table := rows; pending := None; acctIDs := []; entropy := λ k, N.of_nat k;
     cursor := 0; faults := []; log := [] |}.

Definition idA : UUID := 10%N.
Definition idB : UUID := 11%N.

(** ** Vocabulary of the properties *)

(** The account [id] exists with balance [b], as seen through [h].  Account
    ids are never [uuid.Nil]. *)
Definition has_account (h : handle) (w : World) (id : UUID) (b : Z) : Prop :=
  id ≠ uuid_Nil ∧ view h w !! id = Some b.

(** The sum of all balances. *)
Definition total (rows : gmap UUID Z) : Z :=
  map_fold (λ _ v acc, v + acc) 0 rows.

(** No balance is negative. *)
Definition nonneg (rows : gmap UUID Z) : Prop :=
  map_Forall (λ _ v, 0 <= v) rows.

(** What a world keeps when only the log and the store's coming answers
    change. *)
Definition same_rows (w w' : World) : Prop :=
  table w' = table w ∧ pending w' = pending w ∧ acctIDs w' = acctIDs w.

(** The balance [transferFunds] holds in [fromAccount.Balance] after its
    first read. *)
Definition loaded_balance (h : handle) (w : World) (id : UUID) : Z :=
  Balance (First h zeroAccount id w).1.1.

(** Worlds of the scenarios: [A] and [B] with the given balances. *)
Definition two_accounts (a b : Z) : World :=
  world0 (<[idA := a]> (<[idB := b]> ∅)).

Definition one_account (a : Z) : World := world0 (<[idA := a]> ∅).

(** The number of attempts a stretch of the log records: one [EvBegin] per
    attempt. *)
Fixpoint attempts_in (l : list Event) : nat :=
  match l with
  | [] => 0
  | EvBegin :: l' => S (attempts_in l')
  | _ :: l' => attempts_in l'
  end.

(** A unit of work only adds to the log, and never opens a transaction of
    its own. *)
Definition appends_to_log (f : handle → M error) : Prop :=
  ∀ h w, ∃ evs, log (f h w).2 = log w ++ evs ∧ attempts_in evs = 0%nat.

(** A unit of work that fails with a retryable conflict whenever it runs. *)
Definition always_conflicts (f : handle → M error) : Prop :=
  ∀ h w, ∃ e, (f h w).1 = Some e ∧ retryable e = true.

(** The unit of work that reports a serialization conflict and does nothing
    else. *)
Definition conflictUnit : handle → M error := λ tx, ret (Some ErrSerialization).

(** The handle a logged store call was issued on. *)
Definition stmt_handle (e : Event) : option handle :=
  match e with
  | EvStmt h _ => Some h
  | _ => None
  end.

(** The handles of the store calls in a stretch of the log, in order. *)
Definition stmt_handles (l : list Event) : list handle := omap stmt_handle l.

(** A stretch of the log that consists of store calls issued on [h]. *)
Definition calls_on (h : handle) (evs : list Event) : Prop :=
  Forall (λ e, stmt_handle e = Some h) evs.

(** *** The operations of the program, for the invariant on balances *)

(** What the program does to the store: the three functions called
    directly on a handle, the steps of the executor, and the two units of
    work as [main] runs them, inside [ExecuteTx]. *)
Inductive op : Type :=
  | OpInsertRows (h : handle) (numRows : Z)
  | OpTransferFunds (h : handle) (fromID toID : UUID) (amount : Z)
  | OpDeleteAccounts (h : handle)
  | OpBegin
  | OpCommit
  | OpRollback
  | OpSeedTx (budget : nat)
  | OpTransferTx (budget : nat) (fromID toID : UUID) (amount : Z).

Definition exec (o : op) (w : World) : World :=
  match o with
  | OpInsertRows h n => (insertRows h n w).2
  | OpTransferFunds h fromID toID amount => (transferFunds h fromID toID amount w).2
  | OpDeleteAccounts h => (deleteAccounts h w).2
  | OpBegin => (begin w).2
  | OpCommit => (commit w).2
  | OpRollback => (rollback w).2
  | OpSeedTx budget => (ExecuteTx budget (seedUnit DBConn) w).2
  | OpTransferTx budget fromID toID amount =>
      (ExecuteTx budget (λ tx, transferFunds tx fromID toID amount) w).2
  end.

Definition run_ops (ops : list op) (w : World) : World :=
  foldl (λ w o, exec o w) w ops.

(** Transfers are made with [amount > 0]. *)
Definition positive_amount (o : op) : Prop :=
  match o with
  | OpTransferFunds _ _ _ amount | OpTransferTx _ _ _ amount => 0 < amount
  | _ => True
  end.

(** The credit [toBalance + amount] stays within [int]. *)
Definition credit_fits (rows : gmap UUID Z) (toID : UUID) (amount : Z) : Prop :=
  ∀ b, rows !! toID = Some b → b + amount <= GoInt.max_int.

Definition allowed (o : op) (w : World) : Prop :=
  match o with
  | OpTransferFunds h _ toID amount => 0 < amount ∧ credit_fits (view h w) toID amount
  | OpTransferTx _ _ toID amount => 0 < amount ∧ credit_fits (table w) toID amount
  | _ => True
  end.

(** Every operation of the list is allowed in the state it is run in. *)
Fixpoint allowed_run (ops : list op) (w : World) : Prop :=
  match ops with
  | [] => True
  | o :: ops' => allowed o w ∧ allowed_run ops' (exec o w)
  end.

(** A balance that is a non-negative [int]. *)
Definition balance_ok (b : Z) : Prop := 0 <= b <= GoInt.max_int.

(** All balances, committed or written by the open transaction, are
    non-negative [int]s. *)
Definition sound (w : World) : Prop :=
  map_Forall (λ _ b, balance_ok b) (table w) ∧
  ∀ d, pending w = Some d →
       map_Forall (λ _ ov, ∀ b : Z, ov = Some b → balance_ok b) d.

(** [n] transfers of an account to itself, each of the whole balance [b],
    [2 * b], [4 * b], ... *)
Fixpoint doubling (id : UUID) (b : Z) (n : nat) : list op :=
  match n with
  | O => []
  | S n' => OpTransferFunds DBConn id id b :: doubling id (2 * b) n'
  end.

(** Two rows seeded on the empty table, 50 moved from the first to the
    second, and 100 moved back by the transfer unit of work. *)
Definition sample_ops : list op :=
  [OpInsertRows DBConn 2;
   OpTransferFunds DBConn (uuid_New 0) (uuid_New 2) 50;
   OpTransferTx 3 (uuid_New 2) (uuid_New 0) 100].

(** One row seeded on the empty table, with balance 101 for the sample
    random source, and then transferred to itself 57 times. *)
Definition overflow_ops : list op :=
  OpInsertRows DBConn 1 :: doubling (uuid_New 0) 101 57.

(** The store answers the five inserts and then refuses the commit once. *)
Definition one_commit_conflict : list error :=
  replicate 5 None ++ [Some ErrSerialization].

(** The store answers the four calls of a transfer and refuses the commit
    once. *)
Definition one_transfer_conflict : list error :=
  replicate 4 None ++ [Some ErrSerialization].

(** The store refuses the commit of three transfers in a row. *)
Definition three_transfer_conflicts : list error :=
  one_transfer_conflict ++ one_transfer_conflict ++ one_transfer_conflict.

(** The row lists the process printed, oldest first. *)
Definition printed (l : list Event) : list (list Account) :=
  omap (λ e, match e with EvPrintRows rows => Some rows | _ => None end) l.

(** What a call on [h] leaves alone: a call on [db] the write set of the
    open transaction, a call on [tx] the committed rows. *)
Definition untouched_by (h : handle) (w w' : World) : Prop :=
  match h with
  | DBConn => pending w' = pending w
  | DBTx => table w' = table w
  end.

(** The store refuses the commit of [k] transfers in a row and answers
    every call after that. *)
Fixpoint commit_conflicts (k : nat) : list error :=
  match k with
  | O => []
  | S k' => one_transfer_conflict ++ commit_conflicts k'
  end.

(** * Properties *)

(** ** Go's [int] *)

Lemma wrap_in_range z : GoInt.in_range z → GoInt.wrap z = z.
Proof.
  unfold GoInt.in_range, GoInt.wrap, GoInt.min_int, GoInt.max_int, GoInt.int_bits.
  intros [Hlo Hhi]. rewrite Z.mod_small; lia.
Qed.

Lemma wrap_range z : GoInt.in_range (GoInt.wrap z).
Proof.
  unfold GoInt.in_range, GoInt.wrap, GoInt.min_int, GoInt.max_int, GoInt.int_bits.
  pose proof (Z.mod_pos_bound (z + 2 ^ (64 - 1)) (2 ^ 64) ltac:(lia)). lia.
Qed.

Lemma uuid_New_not_Nil r : uuid_New r ≠ uuid_Nil.
Proof.
  unfold uuid_New, uuid_Nil. intros H.
  apply N.lor_eq_0_iff in H as [_ H]. vm_compute in H. discriminate.
Qed.

Lemma rand_Intn_range n w : 0 < n → 0 <= (rand_Intn n w).1 < n.
Proof. intros Hn. cbn. apply Z.mod_pos_bound. exact Hn. Qed.

(** ** Rows seen through a handle *)

Lemma lookup_overlay d t i :
  overlay d t !! i = match d !! i with Some ov => ov | None => t !! i end.
Proof.
  unfold overlay. rewrite lookup_merge.
  destruct (d !! i) as [[?|]|], (t !! i); reflexivity.
Qed.

Lemma overlay_empty t : overlay ∅ t = t.
Proof. apply map_eq; intros i. by rewrite lookup_overlay, lookup_empty. Qed.

Lemma overlay_put d t i v : overlay (<[i := Some v]> d) t = <[i := v]> (overlay d t).
Proof.
  apply map_eq; intros j. rewrite lookup_overlay.
  destruct (decide (i = j)) as [->|Hne].
  - by rewrite !lookup_insert_eq.
  - rewrite !lookup_insert_ne by done. by rewrite lookup_overlay.
Qed.

Lemma overlay_del d t i : overlay (<[i := None]> d) t = delete i (overlay d t).
Proof.
  apply map_eq; intros j. rewrite lookup_overlay.
  destruct (decide (i = j)) as [->|Hne].
  - by rewrite lookup_insert_eq, lookup_delete_eq.
  - rewrite lookup_insert_ne, lookup_delete_ne by done. by rewrite lookup_overlay.
Qed.

Lemma view_usable h w i b : view h w !! i = Some b → usable h w = true.
Proof.
  destruct h; cbn; [done|]. destruct (pending w); [done|].
  by rewrite lookup_empty.
Qed.

Lemma view_put_row h i v w :
  usable h w = true → view h (put_row h i v w) = <[i := v]> (view h w).
Proof.
  destruct h; cbn; [done|]. destruct (pending w); [|done].
  intros _. cbn. apply overlay_put.
Qed.

Lemma view_del_row h i w : view h (del_row h i w) = delete i (view h w).
Proof.
  destruct h; cbn; [done|]. destruct (pending w) eqn:Hp; cbn.
  - apply overlay_del.
  - rewrite Hp. symmetry. apply delete_empty.
Qed.

(** ** The calls, one by one *)

Lemma same_rows_trans w1 w2 w3 : same_rows w1 w2 → same_rows w2 w3 → same_rows w1 w3.
Proof. unfold same_rows. intros (?&?&?) (?&?&?). repeat split; congruence. Qed.

Lemma same_rows_view h w w' : same_rows w w' → view h w' = view h w.
Proof. intros (Ht&Hp&_). destruct h; cbn; by rewrite ?Ht, ?Hp. Qed.

Lemma same_rows_usable h w w' : same_rows w w' → usable h w' = usable h w.
Proof. intros (Ht&Hp&_). destruct h; cbn; by rewrite ?Hp. Qed.

Ltac run := unfold bind, ret, get, modify, emit, next_fault; cbn.

Lemma enter_same_rows h s w : same_rows w (enter h s w).2.
Proof.
  unfold enter. run. destruct (faults w) as [|[e|] fs]; cbn;
    try destruct (usable h _); cbn; by repeat split.
Qed.

Lemma enter_None h s w : (enter h s w).1 = None → usable h w = true.
Proof.
  unfold enter. run. destruct (faults w) as [|[e|] fs]; cbn; try done.
  - replace (usable h (set_log _ w)) with (usable h w) by by destruct h.
    by destruct (usable h w).
  - replace (usable h (set_faults _ _)) with (usable h w) by by destruct h.
    by destruct (usable h w).
Qed.

Lemma enter_healthy h s w :
  healthy w → usable h w = true →
  enter h s w = (None, set_log (log w ++ [EvStmt h s]) w).
Proof.
  unfold healthy, enter. intros Hf Hu. run. rewrite Hf. cbn.
  replace (usable h (set_log _ w)) with (usable h w) by by destruct h.
  by rewrite Hu.
Qed.

Lemma enter_log h s w : log (enter h s w).2 = log w ++ [EvStmt h s].
Proof.
  unfold enter. run. destruct (faults w) as [|[e|] fs]; cbn;
    try destruct (usable h _); done.
Qed.

Lemma First_same_rows h dest id w : same_rows w (First h dest id w).2.
Proof.
  unfold First, bind at 1. pose proof (enter_same_rows h (SFirst id) w) as Hs.
  destruct (enter h (SFirst id) w) as [[e|] w1]; cbn in *; [done|].
  run. by destruct (view h w1 !! id).
Qed.

(** [First] hands back either the destination untouched or the row. *)
Lemma First_result h dest id w :
  (First h dest id w).1.1 = dest ∨
  ∃ b, view h w !! id = Some b ∧ (First h dest id w).1.1 = {| ID := id; Balance := b |}.
Proof.
  unfold First, bind at 1 3. pose proof (enter_same_rows h (SFirst id) w) as Hs.
  destruct (enter h (SFirst id) w) as [[e|] w1]; cbn in *; [by left|].
  run. rewrite (same_rows_view h _ _ Hs).
  destruct (view h w !! id) as [b|] eqn:Hb; cbn; [right; eauto | by left].
Qed.

Lemma First_missing h dest id w :
  view h w !! id = None → (First h dest id w).1.1 = dest.
Proof.
  intros Hm. destruct (First_result h dest id w) as [?|(b&Hb&_)]; [done|congruence].
Qed.

Lemma First_healthy h dest id b w :
  healthy w → view h w !! id = Some b →
  First h dest id w =
    (({| ID := id; Balance := b |}, None), set_log (log w ++ [EvStmt h (SFirst id)]) w).
Proof.
  intros Hf Hb. unfold First, bind at 1.
  rewrite enter_healthy by eauto using view_usable. run.
  replace (view h (set_log _ w)) with (view h w) by by destruct h.
  by rewrite Hb.
Qed.

Lemma Save_healthy h a w :
  healthy w → usable h w = true → ID a ≠ uuid_Nil →
  Save h a w =
    (None, put_row h (ID a) (Balance a) (set_log (log w ++ [EvStmt h (SSave a)]) w)).
Proof.
  intros Hf Hu Hid. unfold Save.
  destruct (N.eqb_spec (ID a) uuid_Nil) as [?|_]; [done|].
  unfold bind at 1. by rewrite enter_healthy.
Qed.

Lemma view_set_log h l w : view h (set_log l w) = view h w.
Proof. by destruct h. Qed.

Lemma usable_set_log h l w : usable h (set_log l w) = usable h w.
Proof. by destruct h. Qed.

Lemma usable_put_row h h' i v w : usable h (put_row h' i v w) = usable h w.
Proof.
  destruct h, h'; cbn; try done.
  destruct (pending w) eqn:Hp; cbn; by rewrite ?Hp.
Qed.

Lemma faults_put_row h i v w : faults (put_row h i v w) = faults w.
Proof. destruct h; cbn; try done; by destruct (pending w). Qed.

Lemma log_put_row h i v w : log (put_row h i v w) = log w.
Proof. destruct h; cbn; try done; by destruct (pending w). Qed.

Lemma acctIDs_put_row h i v w : acctIDs (put_row h i v w) = acctIDs w.
Proof. destruct h; cbn; try done; by destruct (pending w). Qed.

Lemma table_put_row_tx i v w : table (put_row DBTx i v w) = table w.
Proof. cbn. by destruct (pending w). Qed.

Lemma faults_set_log l w : faults (set_log l w) = faults w.
Proof. done. Qed.

Lemma acctIDs_set_log l w : acctIDs (set_log l w) = acctIDs w.
Proof. done. Qed.

Lemma log_set_log l w : log (set_log l w) = l.
Proof. done. Qed.

Create Rewrite HintDb world.
#[local] Hint Rewrite view_set_log usable_set_log usable_put_row faults_put_row
  log_put_row acctIDs_put_row table_put_row_tx faults_set_log acctIDs_set_log
  log_set_log : world.

(** ** [transferFunds] on a store that answers *)

(** Both accounts are there and the check passes: the two saves go through
    with the balances Go computes. *)
Lemma transferFunds_healthy h w fromID toID amount b1 b2 :
  healthy w → has_account h w fromID b1 → has_account h w toID b2 →
  amount <= b1 →
  ∃ w',
    transferFunds h fromID toID amount w = (None, w') ∧
    view h w' =
      <[toID := GoInt.add b2 amount]> (<[fromID := GoInt.sub b1 amount]> (view h w)) ∧
    healthy w' ∧ acctIDs w' = acctIDs w ∧
    log w' = log w ++
      [EvStmt h (SFirst fromID); EvStmt h (SFirst toID);
       EvStmt h (SSave {| ID := fromID; Balance := GoInt.sub b1 amount |});
       EvStmt h (SSave {| ID := toID; Balance := GoInt.add b2 amount |})].
Proof.
  intros Hf [Hn1 H1] [Hn2 H2] Hle.
  assert (Hu : usable h w = true) by eauto using view_usable.
  unfold transferFunds. unfold bind at 1.
  rewrite (First_healthy _ _ _ b1) by done. cbn [fst snd].
  unfold bind at 1.
  rewrite (First_healthy _ _ _ b2) by (by autorewrite with world). cbn [fst snd ID Balance].
  destruct (Z.ltb_spec b1 amount) as [?|_]; [lia|].
  unfold bind at 1. rewrite Save_healthy; [|done|by autorewrite with world|done].
  unfold bind at 1. rewrite Save_healthy;
    [|unfold healthy; by autorewrite with world|by autorewrite with world|done].
  cbn [ID Balance]. eexists. split; [reflexivity|].
  split; [|split; [|split]].
  - rewrite view_put_row by (by autorewrite with world).
    rewrite view_set_log, view_put_row by (by autorewrite with world).
    by rewrite !view_set_log.
  - unfold healthy. by autorewrite with world.
  - by autorewrite with world.
  - autorewrite with world. by rewrite <- !app_assoc.
Qed.

(** ** Sums of balances *)

Lemma total_insert_fresh (m : gmap UUID Z) i v :
  m !! i = None → total (<[i := v]> m) = v + total m.
Proof.
  intros Hi. unfold total. rewrite map_fold_insert_L; [done| |done].
  intros. lia.
Qed.

Lemma total_insert (m : gmap UUID Z) i v :
  total (<[i := v]> m) = total m - default 0 (m !! i) + v.
Proof.
  rewrite <- insert_delete_eq.
  rewrite total_insert_fresh by apply lookup_delete_eq.
  destruct (m !! i) as [x|] eqn:Hi; cbn.
  - rewrite <- (insert_delete_id m i x) at 2 by done.
    rewrite total_insert_fresh by apply lookup_delete_eq. lia.
  - rewrite delete_id by done. lia.
Qed.

(** ** The transfer between two accounts *)

(** C1, as amended: between two distinct existing accounts, on a store that
    answers, with [amount <= fromBalance] and neither [fromBalance - amount]
    nor [toBalance + amount] outside the range of [int], [transferFunds]
    returns [nil], the source row holds [fromBalance - amount], the
    destination row holds [toBalance + amount], and no other row changes. *)
Theorem C1_transfer_moves_amount h w fromID toID amount b1 b2 :
  healthy w →
  has_account h w fromID b1 → has_account h w toID b2 → fromID ≠ toID →
  amount <= b1 →
  GoInt.in_range (b1 - amount) → GoInt.in_range (b2 + amount) →
  ∃ w',
    transferFunds h fromID toID amount w = (None, w') ∧
    view h w' !! fromID = Some (b1 - amount) ∧
    view h w' !! toID = Some (b2 + amount) ∧
    ∀ id, id ≠ fromID → id ≠ toID → view h w' !! id = view h w !! id.
Proof.
  intros Hf H1 H2 Hne Hle Hr1 Hr2.
  destruct (transferFunds_healthy h w fromID toID amount b1 b2)
    as (w' & Hrun & Hview & _); [done..|].
  exists w'. split; [done|]. rewrite Hview.
  unfold GoInt.add, GoInt.sub. rewrite !wrap_in_range by done.
  split; [|split].
  - rewrite lookup_insert_ne by done. apply lookup_insert_eq.
  - apply lookup_insert_eq.
  - intros id Hn1 Hn2. by rewrite !lookup_insert_ne.
Qed.

(** The scenario of the specification: A(500), B(100), transfer of 100. *)
Lemma C1_transfer_moves_amount_witness :
  ∃ w',
    transferFunds DBConn idA idB 100 (two_accounts 500 100) = (None, w') ∧
    view DBConn w' !! idA = Some (500 - 100) ∧
    view DBConn w' !! idB = Some (100 + 100) ∧
    ∀ id, id ≠ idA → id ≠ idB →
      view DBConn w' !! id = view DBConn (two_accounts 500 100) !! id.
Proof.
  apply (C1_transfer_moves_amount DBConn (two_accounts 500 100) idA idB 100 500 100).
  - reflexivity.
  - split; [discriminate | reflexivity].
  - split; [discriminate | reflexivity].
  - discriminate.
  - lia.
  - unfold GoInt.in_range, GoInt.min_int, GoInt.max_int, GoInt.int_bits. lia.
  - unfold GoInt.in_range, GoInt.min_int, GoInt.max_int, GoInt.int_bits. lia.
Defined.

(** C1 as stated fails when the credit overflows: A(500) and B(max_int)
    exist and are distinct, 500 >= 100, the call returns [nil], and B ends
    at [min_int + 99], not at [max_int + 100]. *)
Lemma C1_counterexample_overflow :
  let w := two_accounts 500 GoInt.max_int in
  let r := transferFunds DBConn idA idB 100 w in
  healthy w ∧ has_account DBConn w idA 500 ∧ has_account DBConn w idB GoInt.max_int ∧
  idA ≠ idB ∧ 100 <= 500 ∧
  r.1 = None ∧
  view DBConn r.2 !! idB = Some (GoInt.min_int + 99) ∧
  view DBConn r.2 !! idB ≠ Some (GoInt.max_int + 100).
Proof.
  cbv zeta. repeat split; try discriminate; reflexivity.
Qed.

(** C2, as amended: for every transfer between two distinct existing
    accounts, on a store that answers, with [amount <= fromBalance] and no
    overflow in [fromBalance - amount] and [toBalance + amount], the call
    succeeds, the sum of the two balances is the same before and after, and
    so is the sum of all balances. *)
Theorem C2_transfer_conserves h w fromID toID amount b1 b2 :
  healthy w →
  has_account h w fromID b1 → has_account h w toID b2 → fromID ≠ toID →
  amount <= b1 →
  GoInt.in_range (b1 - amount) → GoInt.in_range (b2 + amount) →
  ∃ w' b1' b2',
    transferFunds h fromID toID amount w = (None, w') ∧
    view h w' !! fromID = Some b1' ∧ view h w' !! toID = Some b2' ∧
    b1 + b2 = b1' + b2' ∧
    total (view h w') = total (view h w).
Proof.
  intros Hf H1 H2 Hne Hle Hr1 Hr2.
  destruct (transferFunds_healthy h w fromID toID amount b1 b2)
    as (w' & Hrun & Hview & _); [done..|].
  destruct H1 as [_ H1], H2 as [_ H2].
  exists w', (b1 - amount), (b2 + amount). split; [done|]. rewrite Hview.
  unfold GoInt.add, GoInt.sub. rewrite !wrap_in_range by done.
  split; [|split; [|split]].
  - rewrite lookup_insert_ne by done. apply lookup_insert_eq.
  - apply lookup_insert_eq.
  - lia.
  - rewrite !total_insert. rewrite lookup_insert_ne by done.
    rewrite H1, H2. cbn. lia.
Qed.

Lemma C2_transfer_conserves_witness :
  ∃ w' b1' b2',
    transferFunds DBConn idA idB 100 (two_accounts 500 100) = (None, w') ∧
    view DBConn w' !! idA = Some b1' ∧ view DBConn w' !! idB = Some b2' ∧
    500 + 100 = b1' + b2' ∧
    total (view DBConn w') = total (view DBConn (two_accounts 500 100)).
Proof.
  apply (C2_transfer_conserves DBConn (two_accounts 500 100) idA idB 100 500 100).
  - reflexivity.
  - split; [discriminate | reflexivity].
  - split; [discriminate | reflexivity].
  - discriminate.
  - lia.
  - unfold GoInt.in_range, GoInt.min_int, GoInt.max_int, GoInt.int_bits. lia.
  - unfold GoInt.in_range, GoInt.min_int, GoInt.max_int, GoInt.int_bits. lia.
Defined.

(** C2 as stated fails.  The transfer of 100 from A(500) to B(max_int)
    succeeds, yet the two balances sum to [500 + max_int] before and to
    [400 + (min_int + 99)] after, and the sum of all balances changes with
    them.  And the transfer of 100 from A(500) to A itself succeeds and
    takes the sum of all balances from 500 to 600. *)
Lemma C2_counterexample :
  let w := two_accounts 500 GoInt.max_int in
  let r := transferFunds DBConn idA idB 100 w in
  let r' := transferFunds DBConn idA idA 100 (one_account 500) in
  r.1 = None ∧
  view DBConn w !! idA = Some 500 ∧ view DBConn w !! idB = Some GoInt.max_int ∧
  view DBConn r.2 !! idA = Some 400 ∧
  view DBConn r.2 !! idB = Some (GoInt.min_int + 99) ∧
  500 + GoInt.max_int ≠ 400 + (GoInt.min_int + 99) ∧
  total (view DBConn r.2) ≠ total (view DBConn w) ∧
  r'.1 = None ∧
  total (view DBConn (one_account 500)) = 500 ∧ total (view DBConn r'.2) = 600.
Proof.
  cbv zeta. repeat split; try discriminate; reflexivity.
Qed.

(** ** The balance check *)

Lemma loaded_balance_healthy h w id b :
  healthy w → view h w !! id = Some b → loaded_balance h w id = b.
Proof.
  intros Hf Hb. unfold loaded_balance. by rewrite (First_healthy _ _ _ b).
Qed.

Lemma loaded_balance_missing h w id :
  view h w !! id = None → loaded_balance h w id = 0.
Proof.
  intros Hm. unfold loaded_balance. by rewrite First_missing.
Qed.

(** When the check of line 40 fails the function returns its error and has
    written nothing. *)
Lemma transferFunds_rejects h w fromID toID amount :
  loaded_balance h w fromID < amount →
  ∃ w',
    transferFunds h fromID toID amount w =
      (Some (ErrLowBalance (ID (First h zeroAccount fromID w).1.1)
                           (loaded_balance h w fromID) amount), w') ∧
    same_rows w w'.
Proof.
  unfold loaded_balance. intros Hlt. unfold transferFunds. unfold bind at 1.
  pose proof (First_same_rows h zeroAccount fromID w) as Hs1.
  destruct (First h zeroAccount fromID w) as [[a1 e1] w1]. cbn [fst snd] in *.
  unfold bind at 1.
  pose proof (First_same_rows h zeroAccount toID w1) as Hs2.
  destruct (First h zeroAccount toID w1) as [[a2 e2] w2]. cbn [fst snd] in *.
  destruct (Z.ltb_spec (Balance a1) amount) as [_|?]; [|lia].
  exists w2. split; [done|]. eauto using same_rows_trans.
Qed.

(** C3: whenever the balance read into [fromAccount] is lower than
    [amount], [transferFunds] fails with its low-balance error, and the
    committed rows, the rows of the open transaction and hence the rows seen
    through either handle are exactly as before. *)
Theorem C3_insufficient_funds_rejected h w fromID toID amount :
  loaded_balance h w fromID < amount →
  ∃ e w',
    transferFunds h fromID toID amount w = (Some e, w') ∧
    is_low_balance (Some e) = true ∧
    table w' = table w ∧ pending w' = pending w ∧
    ∀ h', view h' w' = view h' w.
Proof.
  intros Hlt.
  destruct (transferFunds_rejects h w fromID toID amount Hlt) as (w' & Hrun & Hs).
  eexists _, w'. split; [exact Hrun|]. split; [done|].
  destruct Hs as (Ht & Hp & Ha). repeat split; try done.
  intros h'. apply same_rows_view. by repeat split.
Qed.

(** The scenario of the specification: A(50), transfer of 100 to B. *)
Lemma C3_insufficient_funds_rejected_witness :
  loaded_balance DBConn (two_accounts 50 0) idA = 50 ∧
  ∃ e w',
    transferFunds DBConn idA idB 100 (two_accounts 50 0) = (Some e, w') ∧
    is_low_balance (Some e) = true ∧
    table w' = table (two_accounts 50 0) ∧ pending w' = pending (two_accounts 50 0) ∧
    ∀ h', view h' w' = view h' (two_accounts 50 0).
Proof.
  split; [reflexivity|].
  apply (C3_insufficient_funds_rejected DBConn (two_accounts 50 0) idA idB 100).
  vm_compute. reflexivity.
Defined.

(** ** Accounts that are not there *)

(** What the code does with a source that is not there, when [amount > 0]:
    the read leaves [fromAccount] zero-valued, so the check of line 40
    rejects the transfer with the low-balance error, which names the zero
    account (id [uuid.Nil], balance 0); no row is written. *)
Lemma transferFunds_missing_source h w fromID toID amount :
  view h w !! fromID = None → 0 < amount →
  ∃ w',
    transferFunds h fromID toID amount w =
      (Some (ErrLowBalance uuid_Nil 0 amount), w') ∧
    table w' = table w ∧ pending w' = pending w ∧
    ∀ h', view h' w' = view h' w.
Proof.
  intros Hm Hpos.
  destruct (transferFunds_rejects h w fromID toID amount) as (w' & Hrun & Hs).
  { rewrite loaded_balance_missing by done. lia. }
  rewrite loaded_balance_missing in Hrun by done.
  rewrite First_missing in Hrun by done. cbn in Hrun.
  exists w'. split; [exact Hrun|].
  destruct Hs as (Ht & Hp & Ha). repeat split; try done.
  intros h'. apply same_rows_view. by repeat split.
Qed.

(** C6 fails on the code, on both of its cases, because the results of the
    two [db.First] calls are dropped.  On the store that holds A(500) only,
    the read of B reports [ErrRecordNotFound], and yet: a transfer of 100
    from B to A fails with the low-balance error that names the zero
    account, not with a not-found error; and a transfer of 100 from A to B
    returns [nil], debits A to 400 and puts the 100 in a row created under
    a fresh id, while B still does not exist. *)
Theorem C6_missing_account_not_reported :
  let w := one_account 500 in
  let r1 := transferFunds DBConn idB idA 100 w in
  let r2 := transferFunds DBConn idA idB 100 w in
  view DBConn w !! idB = None ∧
  (First DBConn zeroAccount idB w).1.2 = Some ErrRecordNotFound ∧
  r1.1 = Some (ErrLowBalance uuid_Nil 0 100) ∧ is_not_found r1.1 = false ∧
  r2.1 = None ∧ is_not_found r2.1 = false ∧
  view DBConn r2.2 !! idA = Some 400 ∧
  view DBConn r2.2 !! idB = None ∧
  view DBConn r2.2 !! uuid_New 0 = Some 100.
Proof.
  cbv zeta. repeat split; reflexivity.
Qed.

(** ** Transfers to the same account *)

(** With [fromID = toID] the account is read twice and saved twice; the
    second save, the credit, is the one that stays. *)
Lemma transferFunds_self h w id amount b :
  healthy w → has_account h w id b → amount <= b →
  ∃ w',
    transferFunds h id id amount w = (None, w') ∧
    view h w' = <[id := GoInt.add b amount]> (view h w).
Proof.
  intros Hf Ha Hle.
  destruct (transferFunds_healthy h w id id amount b b)
    as (w' & Hrun & Hview & _); [done..|].
  exists w'. split; [done|]. by rewrite Hview, insert_insert_eq.
Qed.

(** C4 fails on the code: a transfer of 100 from A(500) to A itself returns
    [nil] and leaves A at 600; and with fewer funds than the amount, A(50),
    the same call fails with the low-balance error instead of succeeding. *)
Theorem C4_self_transfer_credits :
  let r := transferFunds DBConn idA idA 100 (one_account 500) in
  let r' := transferFunds DBConn idA idA 100 (one_account 50) in
  r.1 = None ∧
  view DBConn (one_account 500) !! idA = Some 500 ∧
  view DBConn r.2 !! idA = Some 600 ∧
  r'.1 = Some (ErrLowBalance idA 50 100).
Proof.
  cbv zeta. repeat split; reflexivity.
Qed.

(** ** Amounts of any sign *)

(** C10: there is no check of the sign of [amount].  For every [amount]
    with [amount <= fromBalance], zero and negative ones included, both
    saves are made with the balances [fromBalance - amount] and
    [toBalance + amount] of Go's [int]; when [amount] is negative and
    larger in size than the destination's balance, the destination ends
    below zero and the source above where it was. *)
Theorem C10_no_sign_check h w fromID toID amount b1 b2 :
  healthy w →
  has_account h w fromID b1 → has_account h w toID b2 →
  amount <= b1 →
  ∃ w',
    transferFunds h fromID toID amount w = (None, w') ∧
    view h w' =
      <[toID := GoInt.add b2 amount]> (<[fromID := GoInt.sub b1 amount]> (view h w)) ∧
    (fromID ≠ toID → amount < 0 → 0 <= b2 < - amount →
     GoInt.in_range amount → GoInt.in_range (b1 - amount) →
     view h w' !! toID = Some (b2 + amount) ∧ b2 + amount < 0 ∧
     view h w' !! fromID = Some (b1 - amount) ∧ b1 < b1 - amount).
Proof.
  intros Hf H1 H2 Hle.
  destruct (transferFunds_healthy h w fromID toID amount b1 b2)
    as (w' & Hrun & Hview & _); [done..|].
  exists w'. split; [done|]. split; [done|].
  intros Hne Hneg Hb2 Hra Hr1. rewrite Hview.
  unfold GoInt.add, GoInt.sub. rewrite (wrap_in_range (b1 - amount)) by done.
  rewrite (wrap_in_range (b2 + amount)).
  - rewrite lookup_insert_eq, lookup_insert_ne, lookup_insert_eq by done.
    repeat split; lia.
  - unfold GoInt.in_range, GoInt.min_int, GoInt.max_int, GoInt.int_bits in *. lia.
Qed.

(** A(500), B(50) and a transfer of -100 from A to B: A ends at 600 and B at
    -50. *)
Lemma C10_no_sign_check_witness :
  has_account DBConn (two_accounts 500 50) idA 500 ∧
  has_account DBConn (two_accounts 500 50) idB 50 ∧
  ∃ w',
    transferFunds DBConn idA idB (-100) (two_accounts 500 50) = (None, w') ∧
    view DBConn w' !! idB = Some (-50) ∧
    view DBConn w' !! idA = Some 600.
Proof.
  assert (H1 : has_account DBConn (two_accounts 500 50) idA 500)
    by (split; [discriminate | reflexivity]).
  assert (H2 : has_account DBConn (two_accounts 500 50) idB 50)
    by (split; [discriminate | reflexivity]).
  split; [exact H1|]. split; [exact H2|].
  destruct (C10_no_sign_check DBConn (two_accounts 500 50) idA idB (-100) 500 50)
    as (w' & Hrun & _ & Hneg).
  - reflexivity.
  - exact H1.
  - exact H2.
  - lia.
  - exists w'. split; [exact Hrun|].
    destruct Hneg as (Hb & _ & Ha & _).
    + discriminate.
    + lia.
    + lia.
    + unfold GoInt.in_range, GoInt.min_int, GoInt.max_int, GoInt.int_bits. lia.
    + unfold GoInt.in_range, GoInt.min_int, GoInt.max_int, GoInt.int_bits. lia.
    + split; [exact Hb | exact Ha].
Defined.

(** ** Seeding *)

Lemma view_set_cursor h c w : view h (set_cursor c w) = view h w.
Proof. by destruct h. Qed.

Lemma view_set_acctIDs h l w : view h (set_acctIDs l w) = view h w.
Proof. by destruct h. Qed.

(** A [Create] with a key of its own either inserts a row that was not
    there, or fails and writes nothing. *)
Lemma Create_result h a w :
  ID a ≠ uuid_Nil →
  ((Create h a w).1 = None ∧ view h w !! ID a = None ∧
   view h (Create h a w).2 = <[ID a := Balance a]> (view h w) ∧
   acctIDs (Create h a w).2 = acctIDs w)
  ∨ ((Create h a w).1 ≠ None ∧ same_rows w (Create h a w).2).
Proof.
  intros Hid. destruct (Create h a w) as [r w'] eqn:Hrun. cbn [fst snd].
  unfold Create, bind in Hrun.
  pose proof (enter_same_rows h (SCreate a) w) as Hs.
  pose proof (enter_None h (SCreate a) w) as Hu.
  destruct (enter h (SCreate a) w) as [[e|] w1]; cbn [fst snd] in *.
  { injection Hrun as <- <-. right. by split. }
  destruct (N.eqb_spec (ID a) uuid_Nil) as [?|_]; [done|].
  revert Hrun. run. rewrite (same_rows_view h _ _ Hs).
  destruct (view h w !! ID a) as [b|] eqn:Hb; cbn; intros [= <- <-].
  - right. by split.
  - left. split; [done|]. split; [done|].
    rewrite acctIDs_put_row, view_put_row.
    + rewrite (same_rows_view h _ _ Hs). by destruct Hs as (_&_&->).
    + rewrite (same_rows_usable h _ _ Hs). by apply Hu.
Qed.

(** What one run of the loop of [insertRows] leaves behind. *)
Lemma insertRows_loop_spec h n w :
  ∃ created : list Account,
    acctIDs (insertRows_loop h n w).2 = acctIDs w ++ (ID <$> created) ∧
    NoDup (ID <$> created) ∧
    (length created ≤ n)%nat ∧
    ((insertRows_loop h n w).1 = None → length created = n) ∧
    Forall (λ a, transferAmt <= Balance a <= transferAmt + 9999 ∧
                 view h w !! ID a = None ∧
                 view h (insertRows_loop h n w).2 !! ID a = Some (Balance a))
           created ∧
    (∀ id, id ∉ (ID <$> created) →
           view h (insertRows_loop h n w).2 !! id = view h w !! id).
Proof.
  revert w. induction n as [|n IH]; intros w.
  { exists []. cbn. rewrite app_nil_r. repeat split; auto. constructor. }
  destruct (insertRows_loop h (S n) w) as [r wf] eqn:Hrun. cbn [fst snd].
  cbn [insertRows_loop] in Hrun. unfold bind at 1 in Hrun. unfold draw at 1 in Hrun.
  set (w1 := set_cursor (S (cursor w)) w) in Hrun.
  set (newID := uuid_New (entropy w (cursor w))) in Hrun.
  unfold bind at 1 in Hrun.
  pose proof (rand_Intn_range 10000 w1 ltac:(lia)) as Hk.
  destruct (rand_Intn 10000 w1) as [k w2] eqn:Hrand. cbn [fst snd] in Hk.
  assert (Hv2 : view h w2 = view h w).
  { unfold rand_Intn in Hrand. revert Hrand. run. intros [= _ <-].
    by rewrite !view_set_cursor. }
  assert (Ha2 : acctIDs w2 = acctIDs w).
  { unfold rand_Intn in Hrand. revert Hrand. run. by intros [= _ <-]. }
  assert (Hbal : GoInt.add k transferAmt = k + transferAmt).
  { unfold GoInt.add. apply wrap_in_range.
    unfold GoInt.in_range, GoInt.min_int, GoInt.max_int, GoInt.int_bits, transferAmt. lia. }
  set (a := {| ID := newID; Balance := GoInt.add k transferAmt |}) in Hrun.
  unfold bind at 1 in Hrun.
  destruct (Create_result h a w2 (uuid_New_not_Nil _)) as [(Hok & Hfresh & Hview & Hids)|(Hko & Hs)].
  - destruct (Create h a w2) as [[e|] w3]; cbn [fst snd] in *; [done|].
    unfold bind at 1 in Hrun. unfold modify at 1 in Hrun.
    set (w4 := set_acctIDs (acctIDs w3 ++ [newID]) w3) in Hrun.
    destruct (IH w4) as (created & Hacc & Hnd & Hlen & Hfull & Hall & Hframe).
    rewrite Hrun in Hacc, Hfull, Hall, Hframe. cbn [fst snd] in *.
    assert (Hv4 : view h w4 = <[newID := Balance a]> (view h w)).
    { unfold w4. by rewrite view_set_acctIDs, Hview, Hv2. }
    assert (Hnotin : newID ∉ ID <$> created).
    { intros Hin. apply list_elem_of_fmap in Hin as (a' & -> & Hin).
      rewrite Forall_forall in Hall. destruct (Hall _ Hin) as (_ & Hnone & _).
      rewrite Hv4, lookup_insert_eq in Hnone. discriminate. }
    exists (a :: created). split; [|split; [|split; [|split; [|split]]]].
    + rewrite Hacc. unfold w4. cbn. rewrite Hids, Ha2. by rewrite <- app_assoc.
    + rewrite fmap_cons. by constructor.
    + cbn. lia.
    + intros Hnone. cbn. f_equal. by apply Hfull.
    + constructor.
      * split; [|split].
        -- cbn [a Balance]. rewrite Hbal. unfold transferAmt. lia.
        -- by rewrite <- Hv2.
        -- rewrite Hframe by done. rewrite Hv4. apply lookup_insert_eq.
      * eapply Forall_impl; [exact Hall|]. cbn beta.
        intros a' (Hb' & Hnone & Hsome). split; [done|]. split; [|done].
        rewrite Hv4 in Hnone. apply lookup_insert_None in Hnone. tauto.
    + intros id Hid. rewrite fmap_cons in Hid. apply not_elem_of_cons in Hid as [Hne Hid].
      rewrite Hframe by done. rewrite Hv4. by rewrite lookup_insert_ne.
  - destruct (Create h a w2) as [[e|] w3]; cbn [fst snd] in *; [|done].
    injection Hrun as <- <-.
    exists []. cbn. rewrite app_nil_r.
    destruct Hs as (Ht & Hp & Hi).
    split; [congruence|]. split; [constructor|]. split; [lia|]. split; [done|].
    split; [constructor|].
    intros id _.
    rewrite (same_rows_view h w2 w3) by (by repeat split). by rewrite Hv2.
Qed.

(** C9: the rows [insertRows] creates are new rows whose balance lies
    between [transferAmt] = 100 and [transferAmt + 9999], hence is positive
    and covers one transfer of [transferAmt]; their ids are appended to
    [acctIDs] in order, one entry per row and without repetition; no other
    row changes; and when the call returns [nil] it has created [numRows]
    rows. *)
Theorem C9_seeded_rows h numRows w :
  ∃ created : list Account,
    acctIDs (insertRows h numRows w).2 = acctIDs w ++ (ID <$> created) ∧
    length (ID <$> created) = length created ∧
    NoDup (ID <$> created) ∧
    (length created ≤ Z.to_nat numRows)%nat ∧
    ((insertRows h numRows w).1 = None → length created = Z.to_nat numRows) ∧
    Forall (λ a, (transferAmt <= Balance a <= transferAmt + 9999 ∧
                  0 < Balance a ∧ transferAmt = 100) ∧
                 view h w !! ID a = None ∧
                 view h (insertRows h numRows w).2 !! ID a = Some (Balance a))
           created ∧
    (∀ id, id ∉ (ID <$> created) →
           view h (insertRows h numRows w).2 !! id = view h w !! id).
Proof.
  unfold insertRows.
  destruct (insertRows_loop_spec h (Z.to_nat numRows) w)
    as (created & Hacc & Hnd & Hlen & Hfull & Hall & Hframe).
  exists created. repeat split; try done.
  - apply length_fmap.
  - eapply Forall_impl; [exact Hall|]. cbn beta.
    intros a ((Hlo & Hhi) & Hnone & Hsome). unfold transferAmt in *.
    repeat split; try done; lia.
Qed.

(** Five rows on an empty table, as [main] asks for. *)
Example insertRows_five :
  let r := insertRows DBConn 5 (world0 ∅) in
  r.1 = None ∧ length (acctIDs r.2) = 5%nat ∧ size (table r.2) = 5%nat ∧
  map_Forall (λ _ b, 100 <= b <= 10099) (table r.2).
Proof.
  cbv zeta. split; [reflexivity|]. split; [reflexivity|]. split; [reflexivity|].
  apply map_Forall_to_list. vm_compute. repeat constructor; discriminate.
Qed.

(** ** The retry executor *)

Lemma attempts_in_app l1 l2 : attempts_in (l1 ++ l2) = (attempts_in l1 + attempts_in l2)%nat.
Proof.
  induction l1 as [|e l1 IH]; [done|]. destruct e; cbn; by rewrite ?IH.
Qed.

(** One attempt is one [EvBegin]. *)
Lemma attempt_log f w :
  appends_to_log f →
  ∃ evs, log (attempt f w).2 = log w ++ evs ∧ attempts_in evs = 1%nat.
Proof.
  intros Hf. destruct (attempt f w) as [r w'] eqn:Hrun. cbn [fst snd].
  unfold attempt, begin in Hrun. revert Hrun. run.
  set (w1 := set_pending _ _).
  destruct (Hf DBTx w1) as (evs & Hlog & Hn).
  destruct (f DBTx w1) as [[e|] w2]; cbn [fst snd] in *.
  - unfold rollback. run. intros [= _ <-]. cbn.
    exists (EvBegin :: evs ++ [EvRollback]). split.
    + rewrite Hlog. unfold w1. cbn. by rewrite <- !app_assoc.
    + cbn. rewrite attempts_in_app, Hn. done.
  - unfold commit. run. intros Hrun.
    assert (Hw' : log w' = log w2 ++ [EvCommit]).
    { destruct (faults w2) as [|[e|] fs]; cbn in Hrun;
        destruct (pending w2); cbn in Hrun; by injection Hrun as _ <-. }
    exists (EvBegin :: evs ++ [EvCommit]). split.
    + rewrite Hw', Hlog. unfold w1. cbn. by rewrite <- !app_assoc.
    + cbn. rewrite attempts_in_app, Hn. done.
Qed.

Lemma attempt_always_conflicts f w :
  always_conflicts f → ∃ e, (attempt f w).1 = Some e ∧ retryable e = true.
Proof.
  intros Hf. unfold attempt, begin. run. set (w1 := set_pending _ _).
  destruct (Hf DBTx w1) as (e & He & Hr).
  destruct (f DBTx w1) as [r w2]; cbn [fst snd] in *. subst r.
  unfold rollback. run. eauto.
Qed.

Lemma run_attempts_log retries f w :
  appends_to_log f →
  ∃ evs, log (run_attempts retries f w).2 = log w ++ evs ∧
         (1 ≤ attempts_in evs ≤ S retries)%nat.
Proof.
  intros Hf. revert w. induction retries as [|n IH]; intros w.
  - destruct (attempt_log f w Hf) as (evs & Hlog & Hn).
    exists evs. cbn [run_attempts]. unfold bind.
    destruct (attempt f w) as [[e|] w1]; cbn [fst snd] in *.
    + destruct (retryable e); cbn; split; try done; lia.
    + cbn. split; [done|lia].
  - destruct (attempt_log f w Hf) as (evs & Hlog & Hn).
    cbn [run_attempts]. unfold bind.
    destruct (attempt f w) as [[e|] w1]; cbn [fst snd] in *.
    + destruct (retryable e).
      * destruct (IH w1) as (evs' & Hlog' & Hn').
        exists (evs ++ evs'). rewrite Hlog', Hlog, attempts_in_app.
        split; [by rewrite app_assoc|lia].
      * exists evs. cbn. split; [done|lia].
    + exists evs. cbn. split; [done|lia].
Qed.

Lemma run_attempts_gives_up retries f w :
  always_conflicts f → (run_attempts retries f w).1 = Some ErrRetryExhausted.
Proof.
  intros Hc. revert w. induction retries as [|n IH]; intros w;
    destruct (attempt_always_conflicts f w Hc) as (e & He & Hr);
    cbn [run_attempts]; unfold bind;
    destruct (attempt f w) as [r w1]; cbn [fst snd] in *; subst r; rewrite Hr.
  - done.
  - apply IH.
Qed.

Lemma run_attempts_exhausts retries f w :
  appends_to_log f → always_conflicts f →
  ∃ evs, log (run_attempts retries f w).2 = log w ++ evs ∧
         attempts_in evs = S retries.
Proof.
  intros Hf Hc. revert w. induction retries as [|n IH]; intros w.
  - destruct (attempt_log f w Hf) as (evs & Hlog & Hn).
    destruct (attempt_always_conflicts f w Hc) as (e & He & Hr).
    cbn [run_attempts]. unfold bind.
    destruct (attempt f w) as [r w1]; cbn [fst snd] in *. subst r.
    rewrite Hr. cbn. by exists evs.
  - destruct (attempt_log f w Hf) as (evs & Hlog & Hn).
    destruct (attempt_always_conflicts f w Hc) as (e & He & Hr).
    cbn [run_attempts]. unfold bind.
    destruct (attempt f w) as [r w1]; cbn [fst snd] in *. subst r.
    rewrite Hr. destruct (IH w1) as (evs' & Hlog' & Hn').
    exists (evs ++ evs').
    rewrite Hlog', Hlog, attempts_in_app. split; [by rewrite app_assoc|lia].
Qed.

(** C8: the executor is a total function of its budget, its unit of work
    and the state, so every call returns.  When the unit of work fails with
    a retryable conflict every time, the call returns [ErrRetryExhausted].
    And for every unit of work that only adds to the log, the call makes at
    least one and at most [budget + 1] attempts - exactly [budget + 1] when
    every attempt conflicts. *)
Theorem C8_retry_budget budget f w :
  (always_conflicts f → (ExecuteTx budget f w).1 = Some ErrRetryExhausted) ∧
  (appends_to_log f →
   ∃ evs,
     log (ExecuteTx budget f w).2 = log w ++ evs ∧
     (1 ≤ attempts_in evs ≤ S budget)%nat ∧
     (always_conflicts f → attempts_in evs = S budget)).
Proof.
  unfold ExecuteTx. split; [apply run_attempts_gives_up|].
  intros Hf.
  destruct (run_attempts_log budget f w Hf) as (evs & Hlog & Hn).
  exists evs. split; [done|]. split; [done|].
  intros Hc.
  destruct (run_attempts_exhausts budget f w Hf Hc) as (evs' & Hlog' & Hn').
  rewrite Hlog in Hlog'. by apply app_inv_head in Hlog' as ->.
Qed.

(** A budget of three retries and a unit of work that always conflicts:
    four attempts, then [ErrRetryExhausted]. *)
Lemma C8_retry_budget_witness :
  (ExecuteTx 3 conflictUnit (world0 ∅)).1 = Some ErrRetryExhausted ∧
  attempts_in (log (ExecuteTx 3 conflictUnit (world0 ∅)).2) = 4%nat.
Proof.
  assert (Hc : always_conflicts conflictUnit).
  { intros h w. exists ErrSerialization. split; reflexivity. }
  assert (Hf : appends_to_log conflictUnit).
  { intros h w. exists []. split; [symmetry; apply app_nil_r | reflexivity]. }
  destruct (C8_retry_budget 3 conflictUnit (world0 ∅)) as [Hres Hbound].
  destruct (Hbound Hf) as (evs & Hlog & Hn & Hex).
  split; [exact (Hres Hc)|]. rewrite Hlog. exact (Hex Hc).
Defined.

(** ** Which handle the calls go to *)

Lemma calls_on_attempts h evs : calls_on h evs → attempts_in evs = 0%nat.
Proof.
  induction 1 as [|e evs He _ IH]; [done|]. by destruct e.
Qed.

Lemma First_log h dest id w :
  log (First h dest id w).2 = log w ++ [EvStmt h (SFirst id)].
Proof.
  destruct (First h dest id w) as [r w'] eqn:Hrun. cbn [snd].
  unfold First, bind in Hrun. pose proof (enter_log h (SFirst id) w) as Hl.
  destruct (enter h (SFirst id) w) as [[e|] w1]; cbn [fst snd] in *.
  - by injection Hrun as _ <-.
  - revert Hrun. run. destruct (view h w1 !! id); by intros [= _ <-].
Qed.

Lemma Create_log h a w :
  log (Create h a w).2 = log w ++ [EvStmt h (SCreate a)].
Proof.
  destruct (Create h a w) as [r w'] eqn:Hrun. cbn [snd].
  unfold Create, bind in Hrun. pose proof (enter_log h (SCreate a) w) as Hl.
  destruct (enter h (SCreate a) w) as [[e|] w1]; cbn [fst snd] in *.
  - by injection Hrun as _ <-.
  - revert Hrun. destruct (ID a =? uuid_Nil)%N; run.
    + rewrite view_set_cursor.
      destruct (view h w1 !! _); intros [= _ <-]; by rewrite ?log_put_row.
    + destruct (view h w1 !! _); intros [= _ <-]; by rewrite ?log_put_row.
Qed.

Lemma Save_log h a w :
  ∃ s, log (Save h a w).2 = log w ++ [EvStmt h s].
Proof.
  unfold Save. destruct (ID a =? uuid_Nil)%N.
  { eexists. apply Create_log. }
  exists (SSave a). unfold bind. pose proof (enter_log h (SSave a) w) as Hl.
  destruct (enter h (SSave a) w) as [[e|] w1]; cbn [fst snd] in *; [done|].
  run. by rewrite log_put_row.
Qed.

(** Every store call of [transferFunds] goes to the handle it was given. *)
Lemma transferFunds_log h fromID toID amount w :
  ∃ evs,
    log (transferFunds h fromID toID amount w).2 = log w ++ evs ∧
    calls_on h evs ∧ (2 ≤ length evs)%nat.
Proof.
  destruct (transferFunds h fromID toID amount w) as [r w'] eqn:Hrun. cbn [snd].
  unfold transferFunds in Hrun. unfold bind at 1 in Hrun.
  pose proof (First_log h zeroAccount fromID w) as Hl1.
  destruct (First h zeroAccount fromID w) as [[a1 e1] w1]. cbn [fst snd] in *.
  unfold bind at 1 in Hrun.
  pose proof (First_log h zeroAccount toID w1) as Hl2.
  destruct (First h zeroAccount toID w1) as [[a2 e2] w2]. cbn [fst snd] in *.
  rewrite Hl1 in Hl2. clear Hl1.
  destruct (Balance a1 <? amount).
  { injection Hrun as _ <-. eexists. rewrite Hl2, <- app_assoc.
    split; [reflexivity|]. split; [by repeat constructor | cbn; lia]. }
  unfold bind at 1 in Hrun.
  match type of Hrun with context [Save h ?a w2] =>
    destruct (Save_log h a w2) as (s3 & Hl3);
    destruct (Save h a w2) as [[e3|] w3] end; cbn [fst snd] in *.
  { injection Hrun as _ <-. eexists. rewrite Hl3, Hl2, <- !app_assoc.
    split; [reflexivity|]. split; [by repeat constructor | cbn; lia]. }
  unfold bind at 1 in Hrun.
  match type of Hrun with context [Save h ?a w3] =>
    destruct (Save_log h a w3) as (s4 & Hl4);
    destruct (Save h a w3) as [e4 w4] end; cbn [fst snd] in *.
  assert (w' = w4) as -> by (destruct e4; by injection Hrun).
  eexists. rewrite Hl4, Hl3, Hl2, <- !app_assoc.
  split; [reflexivity|]. split; [by repeat constructor | cbn; lia].
Qed.

(** Every store call of [insertRows] goes to the handle it was given. *)
Lemma insertRows_loop_log h n w :
  ∃ evs,
    log (insertRows_loop h n w).2 = log w ++ evs ∧ calls_on h evs ∧
    ((insertRows_loop h n w).1 = None → length evs = n).
Proof.
  revert w. induction n as [|n IH]; intros w.
  { exists []. cbn. rewrite app_nil_r. split; [done|]. split; [constructor|done]. }
  destruct (insertRows_loop h (S n) w) as [r w'] eqn:Hrun. cbn [fst snd].
  cbn [insertRows_loop] in Hrun. revert Hrun. unfold rand_Intn, draw. run.
  set (w2 := set_cursor _ (set_cursor _ w)).
  set (a := {| ID := _ |}).
  pose proof (Create_log h a w2) as Hl.
  destruct (Create h a w2) as [[e|] w3]; cbn [fst snd] in *.
  - intros [= <- <-]. eexists. split; [exact Hl|]. split; [by repeat constructor|done].
  - set (w4 := set_acctIDs _ w3). intros Hrun.
    destruct (IH w4) as (evs & Hl' & Hon & Hlen). rewrite Hrun in Hl', Hlen.
    cbn [fst snd] in *. eexists. rewrite Hl'. unfold w4. cbn. rewrite Hl.
    unfold w2. cbn. rewrite <- app_assoc. split; [reflexivity|].
    split; [by constructor|]. intros Hr. cbn. f_equal. by apply Hlen.
Qed.

(** All calls of the transfer unit of work go to the handle the executor
    hands it. *)
Lemma transferUnit_on_tx fromID toID tx w :
  ∃ evs,
    log (transferUnit fromID toID tx w).2 = log w ++ evs ∧ calls_on tx evs.
Proof.
  unfold transferUnit.
  destruct (transferFunds_log tx fromID toID transferAmt w) as (evs & Hl & Hon & _).
  by exists evs.
Qed.

(** The seed unit of work sends every call to [db], whatever handle it is
    handed. *)
Lemma seedUnit_on_db db tx w :
  ∃ evs,
    log (seedUnit db tx w).2 = log w ++ evs ∧ calls_on db evs.
Proof.
  unfold seedUnit, insertRows.
  destruct (insertRows_loop_log db (Z.to_nat 5) w) as (evs & Hl & Hon & _).
  by exists evs.
Qed.

(** Both units of work of [main] only add store calls to the log, so what
    is proved of the executor above holds for them. *)
Lemma transferUnit_appends fromID toID : appends_to_log (transferUnit fromID toID).
Proof.
  intros tx w. destruct (transferUnit_on_tx fromID toID tx w) as (evs & Hl & Hon).
  exists evs. eauto using calls_on_attempts.
Qed.

Lemma seedUnit_appends db : appends_to_log (seedUnit db).
Proof.
  intros tx w. destruct (seedUnit_on_db db tx w) as (evs & Hl & Hon).
  exists evs. eauto using calls_on_attempts.
Qed.

(** C7 fails on the seed rows: run by the executor, the unit of work of
    lines 115-119 issues its five inserts on [db] and none on [tx].  They
    are committed one by one outside the attempt's transaction, so when the
    commit of the first attempt meets a conflict and the unit of work runs
    again, ten rows and ten ids are left where five were asked for. *)
Theorem C7_seed_unit_bypasses_tx :
  let r := ExecuteTx 3 (seedUnit DBConn) (world0 ∅) in
  let r' := ExecuteTx 3 (seedUnit DBConn) (set_faults one_commit_conflict (world0 ∅)) in
  (stmt_handles (log r.2) = replicate 5 DBConn) ∧
  (DBTx ∉ stmt_handles (log r.2)) ∧
  r'.1 = None ∧ attempts_in (log r'.2) = 2%nat ∧
  size (table r'.2) = 10%nat ∧ length (acctIDs r'.2) = 10%nat.
Proof.
  cbv zeta. split; [reflexivity|]. split.
  - vm_compute. intros Hin. repeat (apply elem_of_cons in Hin as [Hin|Hin]; [discriminate|]).
    by apply elem_of_nil in Hin.
  - repeat split; reflexivity.
Qed.

(** The transfer unit of work under the same conflict: the first attempt
    leaves nothing behind and the second one commits, so the balances are
    those of a single transfer. *)
Example transfer_retried_once :
  let r := ExecuteTx 3 (transferUnit idA idB)
             (set_faults one_transfer_conflict (two_accounts 500 100)) in
  r.1 = None ∧ attempts_in (log r.2) = 2%nat ∧
  table r.2 = <[idA := 400]> (<[idB := 200]> ∅) ∧ pending r.2 = None.
Proof.
  cbv zeta. repeat split; reflexivity.
Qed.

(** With a budget of two retries and three conflicts in a row the executor
    gives up after three attempts and the balances are as before. *)
Example transfer_retry_exhausted :
  let r := ExecuteTx 2 (transferUnit idA idB)
             (set_faults three_transfer_conflicts (two_accounts 500 100)) in
  r.1 = Some ErrRetryExhausted ∧ attempts_in (log r.2) = 3%nat ∧
  table r.2 = table (two_accounts 500 100) ∧ pending r.2 = None.
Proof.
  cbv zeta. repeat split; reflexivity.
Qed.

(** A low balance is not retried: one attempt, the error, no change. *)
Example transfer_low_balance_once :
  let r := ExecuteTx 3 (transferUnit idA idB) (two_accounts 50 100) in
  r.1 = Some (ErrLowBalance idA 50 100) ∧ attempts_in (log r.2) = 1%nat ∧
  table r.2 = table (two_accounts 50 100).
Proof.
  cbv zeta. repeat split; reflexivity.
Qed.

(** ** Balances never go below zero *)

Lemma sound_same_rows w w' : same_rows w w' → sound w → sound w'.
Proof. intros (Ht & Hp & _) [H1 H2]. split; by rewrite ?Ht, ?Hp. Qed.

Lemma sound_put_row h i v w : balance_ok v → sound w → sound (put_row h i v w).
Proof.
  intros Hv Hw. pose proof Hw as [H1 H2]. destruct h; cbn.
  - split; cbn; [|done]. by apply map_Forall_insert_2.
  - destruct (pending w) as [d|] eqn:Hp; [|done].
    split; cbn; [done|]. intros d' [= <-].
    apply map_Forall_insert_2; [by intros b [= <-]|]. by apply H2.
Qed.

Lemma sound_del_row h i w : sound w → sound (del_row h i w).
Proof.
  intros Hw. pose proof Hw as [H1 H2]. destruct h; cbn.
  - split; cbn; [|done]. by apply map_Forall_delete.
  - destruct (pending w) as [d|] eqn:Hp; [|done].
    split; cbn; [done|]. intros d' [= <-].
    apply map_Forall_insert_2; [done|]. by apply H2.
Qed.

Lemma sound_view h w : sound w → map_Forall (λ _ b, balance_ok b) (view h w).
Proof.
  intros [H1 H2]. destruct h; cbn; [done|].
  destruct (pending w) as [d|]; [|apply map_Forall_empty].
  intros i b. rewrite lookup_overlay.
  destruct (d !! i) as [ov|] eqn:Hd.
  - intros ->. by eapply (H2 d eq_refl i (Some b)).
  - apply H1.
Qed.

Lemma sound_nonneg w : sound w → nonneg (table w).
Proof. intros [H1 _] i b Hb. by destruct (H1 i b Hb). Qed.

(** The world a [Create] or a [Save] leaves: nothing written, or one row
    put with the balance of the account. *)
Lemma Create_world h a w :
  ∃ w1, same_rows w w1 ∧
        ((Create h a w).2 = w1 ∨ ∃ id, (Create h a w).2 = put_row h id (Balance a) w1).
Proof.
  destruct (Create h a w) as [r w'] eqn:Hrun. cbn [snd].
  unfold Create, bind in Hrun.
  pose proof (enter_same_rows h (SCreate a) w) as Hs.
  destruct (enter h (SCreate a) w) as [[e|] w1]; cbn [fst snd] in *.
  { injection Hrun as _ <-. exists w1. by split; [|left]. }
  revert Hrun. destruct (ID a =? uuid_Nil)%N; run.
  - set (w2 := set_cursor _ w1).
    assert (Hs2 : same_rows w w2) by (destruct Hs as (?&?&?); by repeat split).
    destruct (view h w2 !! _); intros [= _ <-]; exists w2; (split; [done|]);
      [by left|right; eauto].
  - destruct (view h w1 !! _); intros [= _ <-]; exists w1; (split; [done|]);
      [by left|right; eauto].
Qed.

Lemma Save_world h a w :
  ∃ w1, same_rows w w1 ∧
        ((Save h a w).2 = w1 ∨ ∃ id, (Save h a w).2 = put_row h id (Balance a) w1).
Proof.
  unfold Save. destruct (ID a =? uuid_Nil)%N; [apply Create_world|].
  unfold bind. pose proof (enter_same_rows h (SSave a) w) as Hs.
  destruct (enter h (SSave a) w) as [[e|] w1]; cbn [fst snd] in *.
  - exists w1. by split; [|left].
  - exists w1. split; [done|]. right. by exists (ID a).
Qed.

Lemma Create_sound h a w : balance_ok (Balance a) → sound w → sound (Create h a w).2.
Proof.
  intros Hb Hw. destruct (Create_world h a w) as (w1 & Hs & [->|(id & ->)]).
  - by eapply sound_same_rows.
  - apply sound_put_row; [done|]. by eapply sound_same_rows.
Qed.

Lemma Save_sound h a w : balance_ok (Balance a) → sound w → sound (Save h a w).2.
Proof.
  intros Hb Hw. destruct (Save_world h a w) as (w1 & Hs & [->|(id & ->)]).
  - by eapply sound_same_rows.
  - apply sound_put_row; [done|]. by eapply sound_same_rows.
Qed.

(** A transfer of a positive amount whose credit fits keeps all balances
    non-negative [int]s. *)
Lemma transferFunds_sound h fromID toID amount w :
  0 < amount → credit_fits (view h w) toID amount →
  sound w → sound (transferFunds h fromID toID amount w).2.
Proof.
  intros Hpos Hfit Hw.
  destruct (transferFunds h fromID toID amount w) as [r w'] eqn:Hrun. cbn [snd].
  unfold transferFunds in Hrun. unfold bind at 1 in Hrun.
  pose proof (First_same_rows h zeroAccount fromID w) as Hs1.
  pose proof (First_result h zeroAccount fromID w) as Hr1.
  destruct (First h zeroAccount fromID w) as [[a1 e1] w1]. cbn [fst snd] in *.
  unfold bind at 1 in Hrun.
  pose proof (First_same_rows h zeroAccount toID w1) as Hs2.
  pose proof (First_result h zeroAccount toID w1) as Hr2.
  rewrite (same_rows_view h _ _ Hs1) in Hr2.
  destruct (First h zeroAccount toID w1) as [[a2 e2] w2]. cbn [fst snd] in *.
  assert (Hw2 : sound w2) by eauto using sound_same_rows.
  pose proof (sound_view h w Hw) as Hv.
  destruct (Z.ltb_spec (Balance a1) amount) as [_|Hge].
  { by injection Hrun as _ <-. }
  assert (Hb1 : balance_ok (GoInt.sub (Balance a1) amount)).
  { destruct Hr1 as [->|(b & Hb & ->)]; cbn in *; [lia|].
    destruct (Hv _ _ Hb) as [? ?]. unfold GoInt.sub.
    rewrite wrap_in_range; unfold balance_ok, GoInt.in_range, GoInt.min_int,
      GoInt.max_int, GoInt.int_bits in *; lia. }
  assert (Hb2 : balance_ok (GoInt.add (Balance a2) amount)).
  { assert (Balance a1 <= GoInt.max_int).
    { destruct Hr1 as [->|(b & Hb & ->)]; cbn in *; [lia|].
      by destruct (Hv _ _ Hb). }
    destruct Hr2 as [->|(b & Hb & ->)]; cbn in *; unfold GoInt.add.
    - rewrite wrap_in_range; unfold balance_ok, GoInt.in_range, GoInt.min_int,
        GoInt.max_int, GoInt.int_bits in *; lia.
    - destruct (Hv _ _ Hb) as [? ?]. specialize (Hfit _ Hb).
      rewrite wrap_in_range; unfold balance_ok, GoInt.in_range, GoInt.min_int,
        GoInt.max_int, GoInt.int_bits in *; lia. }
  unfold bind at 1 in Hrun.
  match type of Hrun with context [Save h ?a w2] =>
    pose proof (Save_sound h a w2 Hb1 Hw2) as Hw3;
    destruct (Save h a w2) as [[e3|] w3] end; cbn [fst snd] in *.
  { by injection Hrun as _ <-. }
  unfold bind at 1 in Hrun.
  match type of Hrun with context [Save h ?a w3] =>
    pose proof (Save_sound h a w3 Hb2 Hw3) as Hw4;
    destruct (Save h a w3) as [e4 w4] end; cbn [fst snd] in *.
  assert (w' = w4) as -> by (destruct e4; by injection Hrun). done.
Qed.

Lemma insertRows_loop_sound h n w : sound w → sound (insertRows_loop h n w).2.
Proof.
  revert w. induction n as [|n IH]; intros w Hw; [done|].
  destruct (insertRows_loop h (S n) w) as [r w'] eqn:Hrun. cbn [snd].
  cbn [insertRows_loop] in Hrun. unfold bind at 1 in Hrun. unfold draw at 1 in Hrun.
  set (w1 := set_cursor (S (cursor w)) w) in Hrun.
  unfold bind at 1 in Hrun.
  pose proof (rand_Intn_range 10000 w1 ltac:(lia)) as Hk.
  destruct (rand_Intn 10000 w1) as [k w2] eqn:Hrand. cbn [fst snd] in Hk.
  assert (Hw2 : sound w2).
  { unfold rand_Intn in Hrand. revert Hrand. run. by intros [= _ <-]. }
  unfold bind at 1 in Hrun.
  match type of Hrun with context [Create h ?a w2] =>
    assert (Hw3 : sound (Create h a w2).2);
    [|destruct (Create h a w2) as [[e|] w3]] end; cbn [fst snd] in *.
  - apply Create_sound; [|done]. cbn. unfold GoInt.add.
    rewrite wrap_in_range; unfold balance_ok, GoInt.in_range, GoInt.min_int,
      GoInt.max_int, GoInt.int_bits, transferAmt in *; lia.
  - by injection Hrun as _ <-.
  - unfold bind at 1 in Hrun. unfold modify at 1 in Hrun.
    match type of Hrun with insertRows_loop h n ?w4 = _ =>
      specialize (IH w4); rewrite Hrun in IH end.
    apply IH. by destruct Hw3.
Qed.

Lemma deleteAccounts_sound h w : sound w → sound (deleteAccounts h w).2.
Proof.
  intros Hw. destruct (deleteAccounts h w) as [r w'] eqn:Hrun. cbn [snd].
  unfold deleteAccounts, Delete, bind, get in Hrun.
  pose proof (enter_same_rows h (SDelete (acctIDs w)) w) as Hs.
  destruct (enter h (SDelete (acctIDs w)) w) as [[e|] w1]; cbn [fst snd] in *.
  - injection Hrun as _ <-. by eapply sound_same_rows.
  - assert (Hw1 : sound w1) by (by eapply sound_same_rows).
    revert Hrun. unfold modify, ret. intros [= _ <-].
    clear Hs. induction (acctIDs w) as [|i ids IH]; [done|].
    cbn. by apply sound_del_row.
Qed.

Lemma begin_sound w : sound w → sound (begin w).2.
Proof.
  intros [H1 _]. unfold begin. run. split; cbn; [done|].
  intros d [= <-]. apply map_Forall_empty.
Qed.

Lemma rollback_sound w : sound w → sound (rollback w).2.
Proof. intros [H1 _]. unfold rollback. run. by split. Qed.

Lemma commit_sound w : sound w → sound (commit w).2.
Proof.
  intros Hw. pose proof (sound_view DBTx w Hw) as Hv. destruct Hw as [H1 H2].
  unfold commit. run.
  destruct (faults w) as [|[e|] fs]; cbn; destruct (pending w) as [d|] eqn:Hp;
    cbn in *; try rewrite Hp in *; try (by split); split; try done; cbn.
Qed.

(** Calls on the transaction handle leave the committed rows alone. *)
Lemma Save_tx_table a w : table (Save DBTx a w).2 = table w.
Proof.
  destruct (Save_world DBTx a w) as (w1 & (Ht & _) & [->|(id & ->)]);
    by rewrite ?table_put_row_tx.
Qed.

Lemma transferFunds_tx_table fromID toID amount w :
  table (transferFunds DBTx fromID toID amount w).2 = table w.
Proof.
  destruct (transferFunds DBTx fromID toID amount w) as [r w'] eqn:Hrun. cbn [snd].
  unfold transferFunds in Hrun. unfold bind at 1 in Hrun.
  pose proof (First_same_rows DBTx zeroAccount fromID w) as (Ht1 & _).
  destruct (First DBTx zeroAccount fromID w) as [[a1 e1] w1]. cbn [fst snd] in *.
  unfold bind at 1 in Hrun.
  pose proof (First_same_rows DBTx zeroAccount toID w1) as (Ht2 & _).
  destruct (First DBTx zeroAccount toID w1) as [[a2 e2] w2]. cbn [fst snd] in *.
  destruct (Balance a1 <? amount).
  { injection Hrun as _ <-. congruence. }
  unfold bind at 1 in Hrun.
  match type of Hrun with context [Save DBTx ?a w2] =>
    pose proof (Save_tx_table a w2) as Ht3;
    destruct (Save DBTx a w2) as [[e3|] w3] end; cbn [fst snd] in *.
  { injection Hrun as _ <-. congruence. }
  unfold bind at 1 in Hrun.
  match type of Hrun with context [Save DBTx ?a w3] =>
    pose proof (Save_tx_table a w3) as Ht4;
    destruct (Save DBTx a w3) as [e4 w4] end; cbn [fst snd] in *.
  assert (w' = w4) as -> by (destruct e4; by injection Hrun). congruence.
Qed.

Section Executor.

(** A unit of work [f] and a condition [G] on the committed rows that [f]
    needs and keeps, such that [f], run in a fresh transaction, keeps the
    balances sound. *)
Variable f : handle → M error.
Variable G : gmap UUID Z → Prop.
Hypothesis f_sound :
  ∀ w, sound w → G (table w) → pending w = Some ∅ →
       sound (f DBTx w).2 ∧ G (table (f DBTx w).2).

Lemma attempt_sound w :
  sound w → G (table w) →
  sound (attempt f w).2 ∧ ((attempt f w).1 ≠ None → G (table (attempt f w).2)).
Proof using f_sound.
  intros Hw HG. destruct (attempt f w) as [r w'] eqn:Hrun. cbn [fst snd].
  unfold attempt in Hrun. unfold bind at 1 in Hrun.
  pose proof (begin_sound w Hw) as Hw1.
  assert (Hp1 : pending (begin w).2 = Some ∅) by done.
  assert (Ht1 : table (begin w).2 = table w) by done.
  destruct (begin w) as [[] w1]. cbn [snd] in *.
  unfold bind at 1 in Hrun.
  destruct (f_sound w1 Hw1) as [Hw2 HG2]; [by rewrite Ht1|done|].
  destruct (f DBTx w1) as [[e|] w2]; cbn [fst snd] in *.
  - revert Hrun. unfold rollback. run. intros [= <- <-]. split; [|done].
    destruct Hw2. by split.
  - pose proof (commit_sound w2 Hw2) as Hw3. rewrite Hrun in Hw3.
    split; [done|]. intros Hr. revert Hrun. unfold commit. run.
    destruct (faults w2) as [|[e|] fs]; cbn; destruct (pending w2); cbn;
      intros [= <- <-]; done.
Qed.

Lemma run_attempts_sound retries w :
  sound w → G (table w) → sound (run_attempts retries f w).2.
Proof using f_sound.
  revert w. induction retries as [|n IH]; intros w Hw HG;
    destruct (attempt_sound w Hw HG) as [Hw1 HG1];
    cbn [run_attempts]; unfold bind;
    destruct (attempt f w) as [[e|] w1]; cbn [fst snd] in *; try done.
  - by destruct (retryable e).
  - destruct (retryable e); [|done]. apply IH; [done|]. by apply HG1.
Qed.

End Executor.

Lemma overlay_empty_view w : pending w = Some ∅ → view DBTx w = table w.
Proof. intros Hp. cbn. rewrite Hp. apply overlay_empty. Qed.

(** Every allowed operation keeps the balances sound. *)
Lemma exec_sound o w : allowed o w → sound w → sound (exec o w).
Proof.
  destruct o as [h n|h fromID toID amount|h| | | |budget|budget fromID toID amount];
    cbn [exec allowed]; intros Hal Hw.
  - by apply insertRows_loop_sound.
  - destruct Hal. by apply transferFunds_sound.
  - by apply deleteAccounts_sound.
  - by apply begin_sound.
  - by apply commit_sound.
  - by apply rollback_sound.
  - apply (run_attempts_sound _ (λ _, True)); [|done..].
    intros w1 Hw1 _ _. split; [|done]. by apply insertRows_loop_sound.
  - destruct Hal as [Hpos Hfit].
    apply (run_attempts_sound _ (λ t, credit_fits t toID amount)); [|done..].
    intros w1 Hw1 HG Hp. rewrite transferFunds_tx_table. split; [|done].
    apply transferFunds_sound; [done| |done]. by rewrite overlay_empty_view.
Qed.

Lemma run_ops_sound ops w : allowed_run ops w → sound w → sound (run_ops ops w).
Proof.
  revert w. induction ops as [|o ops IH]; intros w Hal Hw; [done|].
  destruct Hal as [Ho Hal]. cbn. apply IH; [done|]. by apply exec_sound.
Qed.

(** C5, as amended: start from a state whose balances are non-negative
    [int]s and run any sequence of the program's operations - [insertRows],
    [deleteAccounts] and [transferFunds] on either handle, the executor's
    begin, commit and rollback, and the two units of work under [ExecuteTx] -
    in which every transfer has [amount > 0] and a credit [toBalance +
    amount] that does not exceed the largest [int].  Then every committed
    balance is [>= 0]. *)
Theorem C5_balances_stay_nonneg ops w :
  sound w → allowed_run ops w →
  ∀ id b, table (run_ops ops w) !! id = Some b → 0 <= b.
Proof.
  intros Hw Hal. apply sound_nonneg. by apply run_ops_sound.
Qed.

Lemma sound_world0_empty : sound (world0 ∅).
Proof. split; [apply map_Forall_empty | by intros d [=]]. Qed.

Lemma C5_balances_stay_nonneg_witness :
  table (run_ops sample_ops (world0 ∅)) !! uuid_New 0 = Some 151 ∧
  table (run_ops sample_ops (world0 ∅)) !! uuid_New 2 = Some 53 ∧
  ∀ id b, table (run_ops sample_ops (world0 ∅)) !! id = Some b → 0 <= b.
Proof.
  split; [reflexivity|]. split; [reflexivity|].
  apply (C5_balances_stay_nonneg sample_ops (world0 ∅)).
  - split; [apply map_Forall_empty | intros d; discriminate].
  - cbn [allowed_run sample_ops allowed]. split; [exact I|]. split.
    + split; [lia|]. intros b Hb. vm_compute in Hb. injection Hb as <-.
      vm_compute. discriminate.
    + split; [|exact I]. split; [lia|]. intros b Hb. vm_compute in Hb.
      injection Hb as <-. vm_compute. discriminate.
Defined.

Lemma doubling_positive id b n : 0 < b → Forall positive_amount (doubling id b n).
Proof.
  revert b. induction n as [|n IH]; intros b Hb; cbn; constructor; [done|].
  apply IH. lia.
Qed.

(** C5 as stated fails: from the empty table, one [insertRows] and 57
    transfers with [amount > 0] - each of the whole balance of the seeded
    account to that same account - end with a committed balance below
    zero. *)
Lemma C5_counterexample_overflow :
  sound (world0 ∅) ∧ Forall positive_amount overflow_ops ∧
  ∃ b, table (run_ops overflow_ops (world0 ∅)) !! uuid_New 0 = Some b ∧ b < 0.
Proof.
  split; [apply sound_world0_empty|]. split.
  - constructor; [exact I|]. by apply doubling_positive.
  - exists (-3891110078048108544). split; [vm_compute; reflexivity | lia].
Qed.

(** ** A run of [main] *)

(** With the sample random source [main] draws [toID = fromID]: the
    account seeded with 101 is printed with 201 after the transfer, and the
    other four are printed as they were. *)
Example main_transfers_to_self :
  let r := main 3 (world0 ∅) in
  r.1 = Exited ∧ table r.2 = ∅ ∧
  ∃ before after,
    printed (log r.2) = [before; after] ∧
    {| ID := uuid_New 0; Balance := 101 |} ∈ before ∧
    {| ID := uuid_New 0; Balance := 201 |} ∈ after ∧
    total (list_to_map ((λ a, (ID a, Balance a)) <$> before)) + transferAmt =
    total (list_to_map ((λ a, (ID a, Balance a)) <$> after)).
Proof.
  cbv zeta. split; [reflexivity|]. split; [reflexivity|].
  eexists _, _. split; [vm_compute; reflexivity|].
  split; [|split].
  - repeat first [apply list_elem_of_here | apply list_elem_of_further].
  - repeat first [apply list_elem_of_here | apply list_elem_of_further].
  - reflexivity.
Qed.

(** * Further properties of the program *)

(** ** Calls the store answers, and calls it refuses *)

Lemma view_set_faults h fs w : view h (set_faults fs w) = view h w.
Proof. by destruct h. Qed.

Lemma usable_set_faults h fs w : usable h (set_faults fs w) = usable h w.
Proof. by destruct h. Qed.

Lemma usable_set_cursor h c w : usable h (set_cursor c w) = usable h w.
Proof. by destruct h. Qed.

Lemma usable_set_acctIDs h l w : usable h (set_acctIDs l w) = usable h w.
Proof. by destruct h. Qed.

#[local] Hint Rewrite view_set_faults usable_set_faults view_set_cursor
  view_set_acctIDs usable_set_cursor usable_set_acctIDs : world.

Lemma enter_ok h s w fs :
  faults w = None :: fs → usable h w = true →
  enter h s w = (None, set_faults fs (set_log (log w ++ [EvStmt h s]) w)).
Proof.
  intros Hf Hu. unfold enter. run. rewrite Hf. cbn.
  replace (usable h (set_faults _ _)) with (usable h w) by by destruct h.
  by rewrite Hu.
Qed.

Lemma enter_refused h s w e fs :
  faults w = Some e :: fs →
  enter h s w = (Some e, set_faults fs (set_log (log w ++ [EvStmt h s]) w)).
Proof. intros Hf. unfold enter. run. by rewrite Hf. Qed.

Lemma First_ok h dest id b w fs :
  faults w = None :: fs → view h w !! id = Some b →
  First h dest id w =
    (({| ID := id; Balance := b |}, None),
     set_faults fs (set_log (log w ++ [EvStmt h (SFirst id)]) w)).
Proof.
  intros Hf Hb. unfold First, bind at 1.
  rewrite (enter_ok _ _ _ fs) by eauto using view_usable. run.
  autorewrite with world. by rewrite Hb.
Qed.

Lemma Save_ok h a w fs :
  faults w = None :: fs → usable h w = true → ID a ≠ uuid_Nil →
  Save h a w =
    (None, put_row h (ID a) (Balance a)
             (set_faults fs (set_log (log w ++ [EvStmt h (SSave a)]) w))).
Proof.
  intros Hf Hu Hid. unfold Save.
  destruct (N.eqb_spec (ID a) uuid_Nil) as [?|_]; [done|].
  unfold bind at 1. by rewrite (enter_ok _ _ _ fs).
Qed.

Lemma Save_refused h a w e fs :
  faults w = Some e :: fs →
  ∃ s, Save h a w = (Some e, set_faults fs (set_log (log w ++ [EvStmt h s]) w)).
Proof.
  intros Hf. unfold Save, Create.
  destruct (ID a =? uuid_Nil)%N; eexists; unfold bind at 1;
    by rewrite (enter_refused _ _ _ e fs).
Qed.

Lemma enter_faults h s w : faults (enter h s w).2 = tail (faults w).
Proof.
  unfold enter. run. destruct (faults w) as [|[e|] fs] eqn:Hf; cbn;
    try destruct (usable h _); cbn; by rewrite ?Hf.
Qed.

Lemma First_faults h dest id w : faults (First h dest id w).2 = tail (faults w).
Proof.
  destruct (First h dest id w) as [r w'] eqn:Hrun. cbn [snd].
  unfold First, bind in Hrun. pose proof (enter_faults h (SFirst id) w) as Hf.
  destruct (enter h (SFirst id) w) as [[e|] w1]; cbn [fst snd] in *.
  - by injection Hrun as _ <-.
  - revert Hrun. run. destruct (view h w1 !! id); by intros [= _ <-].
Qed.

(** ** [transferFunds]: what a refused save leaves behind *)

(** X1: when the check of line 40 passes and the store refuses the first
    [Save], [transferFunds] returns the store's error (line 48) and has
    written nothing, whatever the two reads were answered. *)
Theorem X1_first_save_refused h w fromID toID amount e fs :
  tail (tail (faults w)) = Some e :: fs →
  amount <= loaded_balance h w fromID →
  ∃ w',
    transferFunds h fromID toID amount w = (Some e, w') ∧
    table w' = table w ∧ pending w' = pending w ∧ acctIDs w' = acctIDs w ∧
    faults w' = fs.
Proof.
  unfold loaded_balance. intros Hf Hle. unfold transferFunds. unfold bind at 1.
  pose proof (First_same_rows h zeroAccount fromID w) as Hs1.
  pose proof (First_faults h zeroAccount fromID w) as Hf1.
  destruct (First h zeroAccount fromID w) as [[a1 e1] w1]. cbn [fst snd] in *.
  unfold bind at 1.
  pose proof (First_same_rows h zeroAccount toID w1) as Hs2.
  pose proof (First_faults h zeroAccount toID w1) as Hf2.
  destruct (First h zeroAccount toID w1) as [[a2 e2] w2]. cbn [fst snd] in *.
  rewrite Hf1, Hf in Hf2.
  destruct (Z.ltb_spec (Balance a1) amount) as [?|_]; [lia|].
  unfold bind at 1.
  match goal with |- context [Save h ?a w2] =>
    destruct (Save_refused h a w2 e fs Hf2) as (s & ->) end.
  eexists. split; [reflexivity|].
  destruct (same_rows_trans _ _ _ Hs1 Hs2) as (Ht & Hp & Ha). by repeat split.
Qed.

Lemma X1_first_save_refused_witness :
  ∃ w',
    transferFunds DBConn idA idB 100
      (set_faults [None; None; Some ErrUnavailable] (two_accounts 500 100)) =
      (Some ErrUnavailable, w') ∧
    table w' = table (two_accounts 500 100) ∧ pending w' = None ∧
    acctIDs w' = [] ∧ faults w' = [].
Proof.
  apply (X1_first_save_refused DBConn
           (set_faults [None; None; Some ErrUnavailable] (two_accounts 500 100))
           idA idB 100 ErrUnavailable []).
  - reflexivity.
  - vm_compute. discriminate.
Defined.

(** X2: when both accounts exist, the check passes, and the store answers
    the first [Save] but refuses the second, [transferFunds] returns the
    store's error (line 51) and the debit stays written: the source row
    holds [fromBalance - amount], the destination row is as it was.  Called
    on [db], outside a transaction, this is a committed half transfer. *)
Theorem X2_second_save_refused h w fromID toID amount b1 b2 e fs :
  faults w = None :: None :: None :: Some e :: fs →
  has_account h w fromID b1 → has_account h w toID b2 → fromID ≠ toID →
  amount <= b1 →
  ∃ w',
    transferFunds h fromID toID amount w = (Some e, w') ∧
    view h w' = <[fromID := GoInt.sub b1 amount]> (view h w) ∧
    view h w' !! toID = Some b2.
Proof.
  intros Hf [Hn1 H1] [Hn2 H2] Hne Hle.
  assert (Hu : usable h w = true) by eauto using view_usable.
  unfold transferFunds. unfold bind at 1.
  rewrite (First_ok _ _ _ b1 _ _ Hf) by done. cbn [fst snd].
  unfold bind at 1.
  rewrite (First_ok _ _ _ b2 _ (None :: Some e :: fs))
    by (by autorewrite with world). cbn [fst snd ID Balance].
  destruct (Z.ltb_spec b1 amount) as [?|_]; [lia|].
  unfold bind at 1.
  rewrite (Save_ok _ _ _ (Some e :: fs)); [|done|by autorewrite with world|done].
  unfold bind at 1.
  match goal with |- context [Save h ?a ?w3] =>
    destruct (Save_refused h a w3 e fs) as (s & ->) end.
  { by autorewrite with world. }
  cbn [ID Balance]. eexists. split; [reflexivity|].
  assert (Hv : ∀ l fs' w0, view h (set_faults fs' (set_log l w0)) = view h w0)
    by (intros; by autorewrite with world).
  rewrite Hv, view_put_row by (by autorewrite with world). rewrite !Hv.
  split; [done|]. by rewrite lookup_insert_ne.
Qed.

Lemma X2_second_save_refused_witness :
  ∃ w',
    transferFunds DBConn idA idB 100
      (set_faults [None; None; None; Some ErrUnavailable] (two_accounts 500 100)) =
      (Some ErrUnavailable, w') ∧
    table w' = <[idA := GoInt.sub 500 100]> (table (two_accounts 500 100)) ∧
    table w' !! idB = Some 100.
Proof.
  apply (X2_second_save_refused DBConn
           (set_faults [None; None; None; Some ErrUnavailable] (two_accounts 500 100))
           idA idB 100 500 100 ErrUnavailable []).
  - reflexivity.
  - split; [discriminate | reflexivity].
  - split; [discriminate | reflexivity].
  - discriminate.
  - lia.
Defined.

(** ** [transferFunds]: there and back, nothing, and never less *)

Lemma wrap_wrap_add x y : GoInt.wrap (GoInt.wrap x + y) = GoInt.wrap (x + y).
Proof.
  unfold GoInt.wrap, GoInt.int_bits.
  replace ((x + 2 ^ (64 - 1)) mod 2 ^ 64 - 2 ^ (64 - 1) + y + 2 ^ (64 - 1))
    with ((x + 2 ^ (64 - 1)) mod 2 ^ 64 + y) by lia.
  rewrite Zplus_mod_idemp_l. f_equal. f_equal. lia.
Qed.

(** X3: a transfer of [amount] from one account to another, followed by a
    transfer of the same [amount] back, leaves every row as it was, provided
    both checks pass; this holds even where the credit in between wraps
    around. *)
Theorem X3_transfer_there_and_back h w idX idY amount bx by_ :
  healthy w →
  has_account h w idX bx → has_account h w idY by_ → idX ≠ idY →
  GoInt.in_range bx → GoInt.in_range by_ →
  amount <= bx → amount <= GoInt.add by_ amount →
  ∃ w1 w2,
    transferFunds h idX idY amount w = (None, w1) ∧
    transferFunds h idY idX amount w1 = (None, w2) ∧
    view h w2 = view h w.
Proof.
  intros Hf HX HY Hne Hrx Hry Hle1 Hle2.
  destruct (transferFunds_healthy h w idX idY amount bx by_)
    as (w1 & Hrun1 & Hv1 & Hf1 & _); [done..|].
  assert (HY1 : has_account h w1 idY (GoInt.add by_ amount)).
  { split; [apply HY|]. rewrite Hv1. apply lookup_insert_eq. }
  assert (HX1 : has_account h w1 idX (GoInt.sub bx amount)).
  { split; [apply HX|]. rewrite Hv1, lookup_insert_ne by done.
    apply lookup_insert_eq. }
  destruct (transferFunds_healthy h w1 idY idX amount _ _ Hf1 HY1 HX1 Hle2)
    as (w2 & Hrun2 & Hv2 & _).
  exists w1, w2. split; [done|]. split; [done|].
  rewrite Hv2, Hv1. unfold GoInt.add, GoInt.sub.
  replace (GoInt.wrap (by_ + amount) - amount)
    with (GoInt.wrap (by_ + amount) + - amount) by lia.
  replace (bx - amount) with (bx + - amount) by lia.
  rewrite !wrap_wrap_add.
  replace (by_ + amount + - amount) with by_ by lia.
  replace (bx + - amount + amount) with bx by lia.
  rewrite !wrap_in_range by done.
  destruct HX as [_ HX], HY as [_ HY].
  apply map_eq. intros i.
  destruct (decide (i = idX)) as [->|?]; [by rewrite lookup_insert_eq|].
  rewrite lookup_insert_ne by done.
  destruct (decide (i = idY)) as [->|?]; [by rewrite lookup_insert_eq|].
  by rewrite !lookup_insert_ne.
Qed.

Lemma X3_transfer_there_and_back_witness :
  ∃ w1 w2,
    transferFunds DBConn idA idB 100 (two_accounts 500 100) = (None, w1) ∧
    transferFunds DBConn idB idA 100 w1 = (None, w2) ∧
    view DBConn w2 = view DBConn (two_accounts 500 100).
Proof.
  apply (X3_transfer_there_and_back DBConn (two_accounts 500 100) idA idB 100 500 100).
  - reflexivity.
  - split; [discriminate | reflexivity].
  - split; [discriminate | reflexivity].
  - discriminate.
  - unfold GoInt.in_range, GoInt.min_int, GoInt.max_int, GoInt.int_bits. lia.
  - unfold GoInt.in_range, GoInt.min_int, GoInt.max_int, GoInt.int_bits. lia.
  - lia.
  - vm_compute. discriminate.
Defined.

(** X4: a transfer of amount 0 between existing accounts, the same account
    included, returns [nil] and leaves every row as it was. *)
Theorem X4_transfer_of_zero h w fromID toID b1 b2 :
  healthy w →
  has_account h w fromID b1 → has_account h w toID b2 →
  GoInt.in_range b1 → GoInt.in_range b2 → 0 <= b1 →
  ∃ w', transferFunds h fromID toID 0 w = (None, w') ∧ view h w' = view h w.
Proof.
  intros Hf H1 H2 Hr1 Hr2 Hpos.
  destruct (transferFunds_healthy h w fromID toID 0 b1 b2)
    as (w' & Hrun & Hv & _); [done..|].
  exists w'. split; [done|]. rewrite Hv. unfold GoInt.add, GoInt.sub.
  rewrite Z.sub_0_r, Z.add_0_r, !wrap_in_range by done.
  destruct H1 as [_ H1], H2 as [_ H2].
  rewrite (insert_id _ fromID b1) by done. by rewrite insert_id.
Qed.

Lemma X4_transfer_of_zero_witness :
  ∃ w', transferFunds DBConn idA idA 0 (one_account 500) = (None, w') ∧
        view DBConn w' = view DBConn (one_account 500).
Proof.
  apply (X4_transfer_of_zero DBConn (one_account 500) idA idA 500 500).
  - reflexivity.
  - split; [discriminate | reflexivity].
  - split; [discriminate | reflexivity].
  - unfold GoInt.in_range, GoInt.min_int, GoInt.max_int, GoInt.int_bits. lia.
  - unfold GoInt.in_range, GoInt.min_int, GoInt.max_int, GoInt.int_bits. lia.
  - lia.
Defined.

Lemma dom_view_put_row h i v w : dom (view h w) ⊆ dom (view h (put_row h i v w)).
Proof.
  destruct (usable h w) eqn:Hu.
  - rewrite view_put_row by done. rewrite dom_insert. set_solver.
  - destruct h; [done|]. cbn in *. by destruct (pending w).
Qed.

Lemma Save_keeps_rows h a w :
  dom (view h w) ⊆ dom (view h (Save h a w).2) ∧
  acctIDs (Save h a w).2 = acctIDs w.
Proof.
  destruct (Save_world h a w) as (w1 & Hs & [->|(id & ->)]).
  - rewrite (same_rows_view h _ _ Hs). by destruct Hs as (_ & _ & ->).
  - rewrite acctIDs_put_row. split; [|by destruct Hs as (_ & _ & ->)].
    rewrite <- (same_rows_view h _ _ Hs). apply dom_view_put_row.
Qed.

(** X5: whatever the store answers, [transferFunds] removes no row - every
    id that was there before the call is there after it - and it leaves
    [acctIDs] as it was. *)
Theorem X5_transferFunds_removes_nothing h w fromID toID amount :
  dom (view h w) ⊆ dom (view h (transferFunds h fromID toID amount w).2) ∧
  acctIDs (transferFunds h fromID toID amount w).2 = acctIDs w.
Proof.
  destruct (transferFunds h fromID toID amount w) as [r w'] eqn:Hrun. cbn [snd].
  unfold transferFunds in Hrun. unfold bind at 1 in Hrun.
  pose proof (First_same_rows h zeroAccount fromID w) as Hs1.
  destruct (First h zeroAccount fromID w) as [[a1 e1] w1]. cbn [fst snd] in *.
  unfold bind at 1 in Hrun.
  pose proof (First_same_rows h zeroAccount toID w1) as Hs2.
  destruct (First h zeroAccount toID w1) as [[a2 e2] w2]. cbn [fst snd] in *.
  pose proof (same_rows_trans _ _ _ Hs1 Hs2) as Hs.
  pose proof (same_rows_view h _ _ Hs) as Hv. destruct Hs as (_ & _ & Ha).
  destruct (Balance a1 <? amount).
  { injection Hrun as _ <-. by rewrite Hv. }
  unfold bind at 1 in Hrun.
  match type of Hrun with context [Save h ?a w2] =>
    destruct (Save_keeps_rows h a w2) as [Hd3 Ha3];
    destruct (Save h a w2) as [[e3|] w3] end; cbn [fst snd] in *.
  { injection Hrun as _ <-. rewrite <- Hv. split; [done|congruence]. }
  unfold bind at 1 in Hrun.
  match type of Hrun with context [Save h ?a w3] =>
    destruct (Save_keeps_rows h a w3) as [Hd4 Ha4];
    destruct (Save h a w3) as [e4 w4] end; cbn [fst snd] in *.
  assert (w' = w4) as -> by (destruct e4; by injection Hrun).
  rewrite <- Hv. split; [set_solver|congruence].
Qed.

(** ** [transferFunds]: a destination that is not there *)

Lemma First_healthy_missing h dest id w :
  healthy w → usable h w = true → view h w !! id = None →
  First h dest id w =
    ((dest, Some ErrRecordNotFound), set_log (log w ++ [EvStmt h (SFirst id)]) w).
Proof.
  intros Hf Hu Hb. unfold First, bind at 1.
  rewrite enter_healthy by done. run. autorewrite with world. by rewrite Hb.
Qed.

Lemma Save_healthy_zero_key h a w :
  healthy w → usable h w = true → ID a = uuid_Nil →
  view h w !! uuid_New (entropy w (cursor w)) = None →
  Save h a w =
    (None, put_row h (uuid_New (entropy w (cursor w))) (Balance a)
             (set_cursor (S (cursor w)) (set_log (log w ++ [EvStmt h (SCreate a)]) w))).
Proof.
  intros Hf Hu Hid Hfree. unfold Save, Create. rewrite Hid. cbn [N.eqb uuid_Nil].
  unfold bind at 1. rewrite enter_healthy by done. run.
  autorewrite with world. by rewrite Hfree.
Qed.

Lemma cursor_put_row h i v w : cursor (put_row h i v w) = cursor w.
Proof. destruct h; cbn; [done|]. by destruct (pending w). Qed.

Lemma entropy_put_row h i v w : entropy (put_row h i v w) = entropy w.
Proof. destruct h; cbn; [done|]. by destruct (pending w). Qed.

Lemma cursor_set_log l w : cursor (set_log l w) = cursor w.
Proof. done. Qed.

Lemma entropy_set_log l w : entropy (set_log l w) = entropy w.
Proof. done. Qed.

#[local] Hint Rewrite cursor_put_row entropy_put_row cursor_set_log
  entropy_set_log : world.

(** X6: when the source exists and covers [amount] but the destination does
    not exist, [transferFunds] does not fail: the read of the destination
    leaves [toAccount] zero-valued, the source is debited, and the second
    [Save], given a record without a key, inserts a new row that holds
    [amount] under the id the column default draws; the call returns
    [nil]. *)
Theorem X6_missing_destination h w fromID toID amount b1 :
  healthy w →
  has_account h w fromID b1 → view h w !! toID = None → amount <= b1 →
  view h w !! uuid_New (entropy w (cursor w)) = None →
  ∃ w',
    transferFunds h fromID toID amount w = (None, w') ∧
    view h w' =
      <[uuid_New (entropy w (cursor w)) := GoInt.add 0 amount]>
        (<[fromID := GoInt.sub b1 amount]> (view h w)).
Proof.
  intros Hf [Hn1 H1] H2 Hle Hfree.
  assert (Hu : usable h w = true) by eauto using view_usable.
  assert (Hne : fromID ≠ uuid_New (entropy w (cursor w))) by congruence.
  unfold transferFunds. unfold bind at 1.
  rewrite (First_healthy _ _ _ b1) by done. cbn [fst snd].
  unfold bind at 1.
  rewrite First_healthy_missing by (by autorewrite with world).
  cbn [fst snd ID Balance zeroAccount].
  destruct (Z.ltb_spec b1 amount) as [?|_]; [lia|].
  unfold bind at 1. rewrite Save_healthy; [|done|by autorewrite with world|done].
  cbn [ID Balance fst snd]. unfold bind at 1.
  match goal with |- context [Save h _ ?w0] => set (w3 := w0) end.
  assert (Hv3 : view h w3 = <[fromID := GoInt.sub b1 amount]> (view h w)).
  { unfold w3. rewrite view_put_row by (by autorewrite with world).
    by autorewrite with world. }
  assert (Hc3 : cursor w3 = cursor w) by (unfold w3; by autorewrite with world).
  assert (He3 : entropy w3 = entropy w) by (unfold w3; by autorewrite with world).
  assert (Hu3 : usable h w3 = true) by (unfold w3; by autorewrite with world).
  assert (Hf3 : healthy w3) by (unfold w3, healthy; by autorewrite with world).
  rewrite Save_healthy_zero_key; [|done|done|done|].
  - cbn [Balance]. eexists. split; [reflexivity|].
    rewrite view_put_row by (by autorewrite with world).
    autorewrite with world. by rewrite Hv3, Hc3, He3.
  - by rewrite Hc3, He3, Hv3, lookup_insert_ne.
Qed.

Lemma X6_missing_destination_witness :
  ∃ w',
    transferFunds DBConn idA idB 100 (one_account 500) = (None, w') ∧
    view DBConn w' =
      <[uuid_New 0 := GoInt.add 0 100]>
        (<[idA := GoInt.sub 500 100]> (view DBConn (one_account 500))).
Proof.
  apply (X6_missing_destination DBConn (one_account 500) idA idB 100 500).
  - reflexivity.
  - split; [discriminate | reflexivity].
  - reflexivity.
  - lia.
  - reflexivity.
Defined.

(** ** [deleteAccounts] *)

Lemma lookup_foldr_delete (m : gmap UUID Z) ids i :
  foldr delete m ids !! i = if decide (i ∈ ids) then None else m !! i.
Proof.
  induction ids as [|j ids IH]; cbn.
  - case_decide; [set_solver|done].
  - destruct (decide (j = i)) as [->|Hne].
    + rewrite lookup_delete_eq.
      destruct (decide (i ∈ i :: ids)) as [?|Hn]; [done|].
      destruct Hn. apply list_elem_of_here.
    + rewrite lookup_delete_ne, IH by done.
      destruct (decide (i ∈ ids)) as [H1|H1], (decide (i ∈ j :: ids)) as [H2|H2];
        try done.
      * destruct H2. by apply list_elem_of_further.
      * apply elem_of_cons in H2 as [->|?]; done.
Qed.

Lemma view_foldr_del_row h ids w :
  view h (foldr (del_row h) w ids) = foldr delete (view h w) ids.
Proof.
  induction ids as [|j ids IH]; [done|]. cbn. by rewrite view_del_row, IH.
Qed.

Lemma acctIDs_del_row h i w : acctIDs (del_row h i w) = acctIDs w.
Proof. destruct h; cbn; [done|]. by destruct (pending w). Qed.

Lemma acctIDs_foldr_del_row h ids w : acctIDs (foldr (del_row h) w ids) = acctIDs w.
Proof. induction ids as [|j ids IH]; [done|]. cbn. by rewrite acctIDs_del_row. Qed.

Lemma deleteAccounts_healthy h w :
  healthy w → usable h w = true →
  deleteAccounts h w =
    (None, foldr (del_row h)
             (set_log (log w ++ [EvStmt h (SDelete (acctIDs w))]) w) (acctIDs w)).
Proof.
  intros Hf Hu. unfold deleteAccounts, Delete. unfold bind at 1. unfold get at 1.
  unfold bind at 1. unfold bind at 1. by rewrite enter_healthy.
Qed.

(** X7: on a store that answers, [deleteAccounts] returns [nil], removes
    the rows whose id is in [acctIDs] and no other, changes no balance, and
    leaves the list [acctIDs] itself as it was. *)
Theorem X7_deleteAccounts_removes_listed h w :
  healthy w → usable h w = true →
  ∃ w',
    deleteAccounts h w = (None, w') ∧
    (∀ id, view h w' !! id = if decide (id ∈ acctIDs w) then None else view h w !! id) ∧
    acctIDs w' = acctIDs w.
Proof.
  intros Hf Hu. rewrite deleteAccounts_healthy by done.
  eexists. split; [reflexivity|]. split.
  - intros id. by rewrite view_foldr_del_row, lookup_foldr_delete, view_set_log.
  - by rewrite acctIDs_foldr_del_row.
Qed.

Lemma X7_deleteAccounts_removes_listed_witness :
  ∃ w',
    deleteAccounts DBConn (set_acctIDs [idA] (two_accounts 500 100)) = (None, w') ∧
    (∀ id, view DBConn w' !! id =
           if decide (id ∈ [idA]) then None
           else view DBConn (two_accounts 500 100) !! id) ∧
    acctIDs w' = [idA].
Proof.
  apply (X7_deleteAccounts_removes_listed DBConn
           (set_acctIDs [idA] (two_accounts 500 100))).
  - reflexivity.
  - reflexivity.
Defined.

(** X8: when the store refuses the delete, [deleteAccounts] returns the
    store's error and no row has gone. *)
Theorem X8_deleteAccounts_refused h w e fs :
  faults w = Some e :: fs →
  ∃ w',
    deleteAccounts h w = (Some e, w') ∧
    table w' = table w ∧ pending w' = pending w ∧ acctIDs w' = acctIDs w.
Proof.
  intros Hf. unfold deleteAccounts, Delete. unfold bind at 1. unfold get at 1.
  unfold bind at 1. unfold bind at 1. rewrite (enter_refused _ _ _ e fs) by done.
  eexists. split; [reflexivity|]. done.
Qed.

Lemma X8_deleteAccounts_refused_witness :
  ∃ w',
    deleteAccounts DBConn
      (set_faults [Some ErrUnavailable] (set_acctIDs [idA] (two_accounts 500 100))) =
      (Some ErrUnavailable, w') ∧
    table w' = table (two_accounts 500 100) ∧ pending w' = None ∧ acctIDs w' = [idA].
Proof.
  apply (X8_deleteAccounts_refused DBConn
           (set_faults [Some ErrUnavailable] (set_acctIDs [idA] (two_accounts 500 100)))
           ErrUnavailable []).
  reflexivity.
Defined.

(** ** [printBalances] *)

(** X9: [printBalances] makes one [Find] call and one print and changes no
    row and no id, whatever the store answers.  On a store that answers it
    prints every row exactly once, with its balance; when the store refuses
    the call the error is dropped and nothing but the heading is printed. *)
Theorem X9_printBalances_reads_only h w :
  ∃ rows,
    log (printBalances h w).2 = log w ++ [EvStmt h SFind; EvPrintRows rows] ∧
    same_rows w (printBalances h w).2 ∧
    (healthy w → usable h w = true →
     NoDup (ID <$> rows) ∧
     ∀ id b, {| ID := id; Balance := b |} ∈ rows ↔ view h w !! id = Some b) ∧
    (∀ e fs, faults w = Some e :: fs → rows = []).
Proof.
  destruct (printBalances h w) as [[] w'] eqn:Hrun. cbn [snd].
  unfold printBalances, Find, bind in Hrun.
  pose proof (enter_same_rows h SFind w) as Hs.
  pose proof (enter_log h SFind w) as Hl.
  destruct (enter h SFind w) as [[e|] w1] eqn:He; cbn [fst snd] in *;
    revert Hrun; run; intros [= <-].
  - exists []. cbn. rewrite Hl, <- app_assoc. split; [done|].
    split; [by destruct Hs as (?&?&?)|]. split; [|done].
    intros Hf Hu. rewrite enter_healthy in He by done. discriminate.
  - eexists. cbn. rewrite Hl, <- app_assoc. split; [reflexivity|].
    split; [by destruct Hs as (?&?&?)|]. rewrite (same_rows_view h _ _ Hs). split.
    + intros _ _. split.
      * rewrite <- list_fmap_compose.
        erewrite (list_fmap_ext _ fst (map_to_list (view h w)))
          by (by intros ? []). apply NoDup_fst_map_to_list.
      * intros id b. rewrite list_elem_of_fmap. split.
        -- intros ([i v] & [= -> ->] & Hin). by apply elem_of_map_to_list in Hin.
        -- intros Hb. exists (id, b). split; [done|]. by apply elem_of_map_to_list.
    + intros e fs Hf. rewrite (enter_refused _ _ _ e fs) in He by done. discriminate.
Qed.

(** ** [insertRows]: how far it got *)

Lemma Create_faults h a w : faults (Create h a w).2 = tail (faults w).
Proof.
  destruct (Create h a w) as [r w'] eqn:Hrun. cbn [snd].
  unfold Create, bind in Hrun. pose proof (enter_faults h (SCreate a) w) as Hf.
  destruct (enter h (SCreate a) w) as [[e|] w1]; cbn [fst snd] in *.
  - by injection Hrun as _ <-.
  - revert Hrun. destruct (ID a =? uuid_Nil)%N; run;
      destruct (view h _ !! _); intros [= _ <-]; by rewrite ?faults_put_row.
Qed.

Lemma Create_usable h a w : usable h (Create h a w).2 = usable h w.
Proof.
  destruct (Create_world h a w) as (w1 & Hs & [->|(id & ->)]);
    by rewrite ?usable_put_row, (same_rows_usable h _ _ Hs).
Qed.

(** One pass of the loop from the inside: what [Create] returned decides. *)
Lemma insertRows_loop_step h n w :
  ∃ a w2,
    ID a ≠ uuid_Nil ∧ view h w2 = view h w ∧ acctIDs w2 = acctIDs w ∧
    usable h w2 = usable h w ∧ faults w2 = faults w ∧
    table w2 = table w ∧ pending w2 = pending w ∧
    insertRows_loop h (S n) w =
      match Create h a w2 with
      | (Some e, w3) => (Some e, w3)
      | (None, w3) => insertRows_loop h n (set_acctIDs (acctIDs w3 ++ [ID a]) w3)
      end.
Proof.
  set (w1 := set_cursor (S (cursor w)) w).
  set (w2 := set_cursor (S (cursor w1)) w1).
  exists {| ID := uuid_New (entropy w (cursor w));
            Balance := GoInt.add (Z.of_N (entropy w1 (cursor w1)) mod 10000) transferAmt |},
         w2.
  cbn [ID]. split; [apply uuid_New_not_Nil|].
  split; [unfold w2, w1; by rewrite !view_set_cursor|]. split; [done|].
  split; [unfold w2, w1; by rewrite !usable_set_cursor|].
  split; [done|]. split; [done|]. split; [done|].
  cbn [insertRows_loop]. unfold bind at 1. unfold draw at 1. fold w1.
  unfold bind at 1. unfold rand_Intn, bind at 1. unfold draw, ret at 1. fold w2.
  unfold bind at 1.
  match goal with |- context [Create h ?a0 w2] =>
    destruct (Create h a0 w2) as [[e|] w3] end; [done|].
  unfold bind at 1. unfold modify at 1. reflexivity.
Qed.

Lemma insertRows_loop_short h n w e :
  (insertRows_loop h n w).1 = Some e →
  (length (acctIDs (insertRows_loop h n w).2) < length (acctIDs w) + n)%nat.
Proof.
  revert w. induction n as [|n IH]; intros w; [done|].
  destruct (insertRows_loop_step h n w) as (a & w2 & Hid & _ & Ha2 & _ & _ & _ & _ & ->).
  destruct (Create_result h a w2 Hid) as [(Hok & _ & _ & Hids)|(Hko & Hs)];
    destruct (Create h a w2) as [[e'|] w3]; cbn [fst snd] in *; try done.
  - intros Hr. specialize (IH _ Hr). revert IH. cbn. rewrite length_app, Hids, Ha2.
    cbn. lia.
  - intros _. destruct Hs as (_ & _ & ->). rewrite Ha2. lia.
Qed.

(** X10: [insertRows] returns [nil] exactly when it has appended
    [numRows] ids to [acctIDs]; when it returns an error it has appended
    fewer; and with [numRows <= 0] it returns [nil] and does nothing at
    all. *)
Theorem X10_insertRows_error_iff_short h numRows w :
  ((insertRows h numRows w).1 = None ↔
   length (acctIDs (insertRows h numRows w).2) =
     (length (acctIDs w) + Z.to_nat numRows)%nat) ∧
  ((insertRows h numRows w).1 ≠ None →
   (length (acctIDs (insertRows h numRows w).2) <
      length (acctIDs w) + Z.to_nat numRows)%nat) ∧
  (numRows <= 0 → insertRows h numRows w = (None, w)).
Proof.
  unfold insertRows.
  destruct (insertRows_loop_spec h (Z.to_nat numRows) w)
    as (created & Hacc & _ & _ & Hfull & _).
  assert (Hshort : (insertRows_loop h (Z.to_nat numRows) w).1 ≠ None →
    (length (acctIDs (insertRows_loop h (Z.to_nat numRows) w).2) <
       length (acctIDs w) + Z.to_nat numRows)%nat).
  { destruct (insertRows_loop h (Z.to_nat numRows) w).1 as [e|] eqn:Hr; [|done].
    intros _. by eapply insertRows_loop_short. }
  split; [|split; [done|]].
  - split.
    + intros Hr. rewrite Hacc, length_app, length_fmap. by rewrite Hfull.
    + intros Hlen.
      destruct (insertRows_loop h (Z.to_nat numRows) w).1 as [e|] eqn:Hr; [|done].
      assert (Hne : Some e ≠ None) by done. specialize (Hshort Hne). lia.
  - intros Hle. by rewrite Z2Nat.nonpos.
Qed.

Lemma insertRows_loop_grows h n w :
  view h w ⊆ view h (insertRows_loop h n w).2 ∧
  (size (view h (insertRows_loop h n w).2) + length (acctIDs w) =
   size (view h w) + length (acctIDs (insertRows_loop h n w).2))%nat.
Proof.
  revert w. induction n as [|n IH]; intros w; [done|].
  destruct (insertRows_loop_step h n w) as (a & w2 & Hid & Hv2 & Ha2 & _ & _ & _ & _ & ->).
  destruct (Create_result h a w2 Hid) as [(Hok & Hfresh & Hview & Hids)|(Hko & Hs)];
    destruct (Create h a w2) as [[e'|] w3]; cbn [fst snd] in *; try done.
  - destruct (IH (set_acctIDs (acctIDs w3 ++ [ID a]) w3)) as [Hsub Hsize].
    revert Hsub Hsize. rewrite view_set_acctIDs, Hview, Hv2. cbn.
    rewrite length_app, Hids, Ha2. cbn. rewrite Hv2 in Hfresh.
    rewrite map_size_insert_None by done. intros Hsub Hsize. split; [|lia].
    etrans; [|exact Hsub]. by apply insert_subseteq.
  - rewrite (same_rows_view h _ _ Hs), Hv2. destruct Hs as (_ & _ & ->).
    by rewrite Ha2.
Qed.

(** X11: whatever the store answers, [insertRows] overwrites and removes
    no row - every row that was there is there with the same balance - and
    the number of rows grows by exactly the number of ids appended to
    [acctIDs]. *)
Theorem X11_insertRows_only_adds h numRows w :
  view h w ⊆ view h (insertRows h numRows w).2 ∧
  (size (view h (insertRows h numRows w).2) + length (acctIDs w) =
   size (view h w) + length (acctIDs (insertRows h numRows w).2))%nat.
Proof.
  unfold insertRows.
  destruct (insertRows_loop_grows h (Z.to_nat numRows) w) as [Hsub Hsize].
  split; [exact Hsub | exact Hsize].
Qed.

(** ** Which rows a call can reach *)

Lemma untouched_same_rows h w w' : same_rows w w' → untouched_by h w w'.
Proof. intros (Ht & Hp & _). by destruct h. Qed.

Lemma untouched_trans h w1 w2 w3 :
  untouched_by h w1 w2 → untouched_by h w2 w3 → untouched_by h w1 w3.
Proof. destruct h; cbn; congruence. Qed.

Lemma untouched_put_row h i v w : untouched_by h w (put_row h i v w).
Proof. destruct h; cbn; [done|]. by destruct (pending w). Qed.

Lemma untouched_del_row h i w : untouched_by h w (del_row h i w).
Proof. destruct h; cbn; [done|]. by destruct (pending w). Qed.

Lemma untouched_set_acctIDs h l w : untouched_by h w (set_acctIDs l w).
Proof. by destruct h. Qed.

Lemma Create_untouched h a w : untouched_by h w (Create h a w).2.
Proof.
  destruct (Create_world h a w) as (w1 & Hs & [->|(id & ->)]).
  - by apply untouched_same_rows.
  - eapply untouched_trans; [by apply untouched_same_rows|apply untouched_put_row].
Qed.

Lemma Save_untouched h a w : untouched_by h w (Save h a w).2.
Proof.
  destruct (Save_world h a w) as (w1 & Hs & [->|(id & ->)]).
  - by apply untouched_same_rows.
  - eapply untouched_trans; [by apply untouched_same_rows|apply untouched_put_row].
Qed.

Lemma insertRows_loop_untouched h n w : untouched_by h w (insertRows_loop h n w).2.
Proof.
  revert w. induction n as [|n IH]; intros w; [by destruct h|].
  destruct (insertRows_loop_step h n w)
    as (a & w2 & _ & _ & _ & _ & _ & Ht2 & Hp2 & ->).
  assert (H2 : untouched_by h w w2) by (by destruct h).
  pose proof (Create_untouched h a w2) as H3.
  destruct (Create h a w2) as [[e|] w3]; cbn [fst snd] in *.
  - by eapply untouched_trans.
  - eapply untouched_trans; [exact H2|]. eapply untouched_trans; [exact H3|].
    eapply untouched_trans; [apply untouched_set_acctIDs|apply IH].
Qed.

Lemma transferFunds_untouched h fromID toID amount w :
  untouched_by h w (transferFunds h fromID toID amount w).2.
Proof.
  destruct (transferFunds h fromID toID amount w) as [r w'] eqn:Hrun. cbn [snd].
  unfold transferFunds in Hrun. unfold bind at 1 in Hrun.
  pose proof (First_same_rows h zeroAccount fromID w) as Hs1.
  destruct (First h zeroAccount fromID w) as [[a1 e1] w1]. cbn [fst snd] in *.
  unfold bind at 1 in Hrun.
  pose proof (First_same_rows h zeroAccount toID w1) as Hs2.
  destruct (First h zeroAccount toID w1) as [[a2 e2] w2]. cbn [fst snd] in *.
  assert (H2 : untouched_by h w w2)
    by (apply untouched_same_rows; by eapply same_rows_trans).
  destruct (Balance a1 <? amount).
  { by injection Hrun as _ <-. }
  unfold bind at 1 in Hrun.
  match type of Hrun with context [Save h ?a w2] =>
    pose proof (Save_untouched h a w2) as H3;
    destruct (Save h a w2) as [[e3|] w3] end; cbn [fst snd] in *.
  { injection Hrun as _ <-. by eapply untouched_trans. }
  unfold bind at 1 in Hrun.
  match type of Hrun with context [Save h ?a w3] =>
    pose proof (Save_untouched h a w3) as H4;
    destruct (Save h a w3) as [e4 w4] end; cbn [fst snd] in *.
  assert (w' = w4) as -> by (destruct e4; by injection Hrun).
  eapply untouched_trans; [exact H2|]. by eapply untouched_trans.
Qed.

Lemma deleteAccounts_untouched h w : untouched_by h w (deleteAccounts h w).2.
Proof.
  destruct (deleteAccounts h w) as [r w'] eqn:Hrun. cbn [snd].
  unfold deleteAccounts, Delete, bind, get in Hrun.
  pose proof (enter_same_rows h (SDelete (acctIDs w)) w) as Hs.
  destruct (enter h (SDelete (acctIDs w)) w) as [[e|] w1]; cbn [fst snd] in *.
  - injection Hrun as _ <-. by apply untouched_same_rows.
  - revert Hrun. unfold modify, ret. intros [= _ <-].
    eapply untouched_trans; [by apply untouched_same_rows|].
    clear Hs. induction (acctIDs w) as [|i ids IH]; [by destruct h|].
    cbn. eapply untouched_trans; [exact IH|apply untouched_del_row].
Qed.

(** X12: whatever the store answers, [insertRows], [transferFunds] and
    [deleteAccounts] reach only the rows of the handle they are given:
    called on the transaction handle they leave the committed rows as they
    are, and called on the connection they leave the write set of an open
    transaction as it is. *)
Theorem X12_calls_stay_on_their_handle h w numRows fromID toID amount :
  untouched_by h w (insertRows h numRows w).2 ∧
  untouched_by h w (transferFunds h fromID toID amount w).2 ∧
  untouched_by h w (deleteAccounts h w).2.
Proof.
  split; [|split].
  - unfold insertRows. apply insertRows_loop_untouched.
  - apply transferFunds_untouched.
  - apply deleteAccounts_untouched.
Qed.

(** ** Seeding and tearing down *)

Lemma insertRows_loop_healthy h n w :
  healthy w →
  healthy (insertRows_loop h n w).2 ∧
  usable h (insertRows_loop h n w).2 = usable h w.
Proof.
  unfold healthy. revert w. induction n as [|n IH]; intros w Hf; [done|].
  destruct (insertRows_loop_step h n w)
    as (a & w2 & _ & _ & _ & Hu2 & Hf2 & _ & _ & ->).
  pose proof (Create_faults h a w2) as Hf3. rewrite Hf2, Hf in Hf3.
  pose proof (Create_usable h a w2) as Hu3.
  destruct (Create h a w2) as [[e|] w3]; cbn [fst snd] in *.
  - split; [done|congruence].
  - destruct (IH (set_acctIDs (acctIDs w3 ++ [ID a]) w3) Hf3) as [Hf4 Hu4].
    split; [done|]. rewrite Hu4, usable_set_acctIDs. congruence.
Qed.

(** X13: on a store that answers, [deleteAccounts] undoes [insertRows]:
    after the two calls the rows are those from before the seeding, less
    the rows whose ids were in [acctIDs] already - so with an empty
    [acctIDs] at the start every row is back as it was - also when
    [insertRows] stopped early on an error. *)
Theorem X13_seed_then_delete h numRows w :
  healthy w → usable h w = true →
  ∃ w',
    deleteAccounts h (insertRows h numRows w).2 = (None, w') ∧
    view h w' = foldr delete (view h w) (acctIDs w) ∧
    (acctIDs w = [] → view h w' = view h w).
Proof.
  intros Hf Hu. unfold insertRows.
  destruct (insertRows_loop_healthy h (Z.to_nat numRows) w Hf) as [Hf1 Hu1].
  destruct (insertRows_loop_spec h (Z.to_nat numRows) w)
    as (created & Hacc & _ & _ & _ & Hall & Hframe).
  rewrite deleteAccounts_healthy by congruence.
  eexists. split; [reflexivity|].
  assert (Hv : view h (foldr (del_row h)
      (set_log (log (insertRows_loop h (Z.to_nat numRows) w).2 ++
         [EvStmt h (SDelete (acctIDs (insertRows_loop h (Z.to_nat numRows) w).2))])
         (insertRows_loop h (Z.to_nat numRows) w).2)
      (acctIDs (insertRows_loop h (Z.to_nat numRows) w).2)) =
    foldr delete (view h w) (acctIDs w)).
  { rewrite view_foldr_del_row, view_set_log. apply map_eq. intros i.
    rewrite !lookup_foldr_delete, Hacc.
    destruct (decide (i ∈ acctIDs w)) as [Hi|Hi].
    - by rewrite decide_True by (apply elem_of_app; by left).
    - destruct (decide (i ∈ ID <$> created)) as [Hc|Hc].
      + rewrite decide_True by (apply elem_of_app; by right).
        apply list_elem_of_fmap in Hc as (a & -> & Hin).
        rewrite Forall_forall in Hall. by destruct (Hall _ Hin) as (_ & -> & _).
      + rewrite decide_False by (rewrite elem_of_app; tauto). by apply Hframe. }
  split; [exact Hv|]. intros Hnil. rewrite Hv. by rewrite Hnil.
Qed.

Lemma X13_seed_then_delete_witness :
  ∃ w',
    deleteAccounts DBConn (insertRows DBConn 5 (two_accounts 500 100)).2 = (None, w') ∧
    view DBConn w' = foldr delete (view DBConn (two_accounts 500 100)) [] ∧
    (acctIDs (two_accounts 500 100) = [] →
     view DBConn w' = view DBConn (two_accounts 500 100)).
Proof.
  apply (X13_seed_then_delete DBConn 5 (two_accounts 500 100)).
  - reflexivity.
  - reflexivity.
Defined.

(** ** The transfer as the executor runs it *)

Section TxOnly.

(** A unit of work that leaves the committed rows to the commit. *)
Variable f : handle → M error.
Hypothesis f_tx_only : ∀ w, table (f DBTx w).2 = table w.

Lemma attempt_all_or_nothing w :
  pending (attempt f w).2 = None ∧
  ((attempt f w).1 ≠ None → table (attempt f w).2 = table w).
Proof using f_tx_only.
  destruct (attempt f w) as [r w'] eqn:Hrun. cbn [fst snd].
  unfold attempt in Hrun. unfold bind at 1 in Hrun.
  assert (Ht1 : table (begin w).2 = table w) by done.
  destruct (begin w) as [[] w1]. cbn [snd] in *.
  unfold bind at 1 in Hrun.
  pose proof (f_tx_only w1) as Ht2.
  destruct (f DBTx w1) as [[e|] w2]; cbn [fst snd] in *.
  - revert Hrun. unfold rollback. run. intros [= <- <-]. cbn. split; [done|].
    intros _. congruence.
  - revert Hrun. unfold commit. run.
    destruct (faults w2) as [|[e|] fs]; cbn; destruct (pending w2); cbn;
      intros [= <- <-]; cbn; (split; [done|]); try done; intros _; congruence.
Qed.

Lemma run_attempts_all_or_nothing retries w :
  pending (run_attempts retries f w).2 = None ∧
  ((run_attempts retries f w).1 ≠ None →
   table (run_attempts retries f w).2 = table w).
Proof using f_tx_only.
  revert w. induction retries as [|n IH]; intros w;
    destruct (attempt_all_or_nothing w) as [Hp Ht];
    cbn [run_attempts]; unfold bind;
    destruct (attempt f w) as [[e|] w1]; cbn [fst snd] in *; try done.
  - destruct (retryable e); cbn; (split; [done|]); intros _; by apply Ht.
  - destruct (retryable e); cbn.
    + destruct (IH w1) as [Hp' Ht']. split; [done|]. intros Hr.
      rewrite Ht' by done. by apply Ht.
    + split; [done|]. intros _. by apply Ht.
Qed.

End TxOnly.

(** X14: run by the executor, the transfer is all or nothing, whatever the
    store answers and however many attempts are made: when [ExecuteTx]
    returns an error the committed rows are exactly those from before the
    call, and no transaction is left open either way. *)
Theorem X14_transfer_all_or_nothing budget fromID toID w :
  pending (ExecuteTx budget (transferUnit fromID toID) w).2 = None ∧
  ((ExecuteTx budget (transferUnit fromID toID) w).1 ≠ None →
   table (ExecuteTx budget (transferUnit fromID toID) w).2 = table w).
Proof.
  unfold ExecuteTx. apply run_attempts_all_or_nothing.
  intros w1. unfold transferUnit. apply transferFunds_tx_table.
Qed.

Lemma view_tx_begin w : view DBTx (begin w).2 = table w.
Proof. unfold begin. run. apply overlay_empty. Qed.

(** One clean attempt of a transfer between accounts that are there. *)
Lemma attempt_transfer_healthy fromID toID amount b1 b2 w :
  healthy w →
  fromID ≠ uuid_Nil → table w !! fromID = Some b1 →
  toID ≠ uuid_Nil → table w !! toID = Some b2 →
  amount <= b1 →
  ∃ w',
    attempt (λ tx, transferFunds tx fromID toID amount) w = (None, w') ∧
    table w' =
      <[toID := GoInt.add b2 amount]> (<[fromID := GoInt.sub b1 amount]> (table w)) ∧
    pending w' = None ∧ healthy w' ∧ acctIDs w' = acctIDs w ∧
    ∃ evs, log w' = log w ++ evs ∧ attempts_in evs = 1%nat.
Proof.
  intros Hf Hn1 H1 Hn2 H2 Hle.
  destruct (attempt_log (λ tx, transferFunds tx fromID toID amount) w)
    as (evs & Hlog & Hn).
  { intros tx w0. destruct (transferFunds_log tx fromID toID amount w0)
      as (evs0 & Hl & Hon & _). exists evs0. eauto using calls_on_attempts. }
  destruct (attempt _ w) as [r w'] eqn:Hrun. cbn [snd] in Hlog.
  unfold attempt in Hrun. unfold bind at 1 in Hrun.
  pose proof (view_tx_begin w) as Hv1.
  assert (Hf1 : healthy (begin w).2) by done.
  assert (Ha1 : acctIDs (begin w).2 = acctIDs w) by done.
  assert (Ht1 : table (begin w).2 = table w) by done.
  destruct (begin w) as [[] w1]. cbn [snd] in *.
  unfold bind at 1 in Hrun.
  destruct (transferFunds_healthy DBTx w1 fromID toID amount b1 b2)
    as (w2 & Hrun2 & Hv2 & Hf2 & Ha2 & _); [done|split; by rewrite ?Hv1..|done|].
  pose proof (transferFunds_tx_table fromID toID amount w1) as Ht2.
  rewrite Hrun2 in Hrun, Ht2. cbn [fst snd] in *.
  assert (Hu2 : usable DBTx w2 = true).
  { eapply (view_usable _ _ toID). rewrite Hv2. apply lookup_insert_eq. }
  rewrite Hv1 in Hv2.
  revert Hrun. unfold commit. run. rewrite Hf2. cbn.
  cbn in Hu2, Hv2. destruct (pending w2) as [d|]; [|done]. cbn.
  intros [= <- <-]. eexists. split; [reflexivity|]. cbn.
  split; [by rewrite Hv2|]. split; [done|]. split; [done|].
  split; [congruence|]. by exists evs.
Qed.

(** On a store that answers, the executor runs a transfer between two
    existing accounts (which may be one and the same) in a single attempt:
    [ExecuteTx] returns [nil], the committed rows are those the transfer
    wrote, and no transaction is left open. *)
Lemma transfer_commits_once budget fromID toID b1 b2 w :
  healthy w →
  fromID ≠ uuid_Nil → table w !! fromID = Some b1 →
  toID ≠ uuid_Nil → table w !! toID = Some b2 →
  transferAmt <= b1 →
  ∃ w' evs,
    ExecuteTx budget (transferUnit fromID toID) w = (None, w') ∧
    table w' =
      <[toID := GoInt.add b2 transferAmt]>
        (<[fromID := GoInt.sub b1 transferAmt]> (table w)) ∧
    pending w' = None ∧
    log w' = log w ++ evs ∧ attempts_in evs = 1%nat.
Proof.
  intros Hf Hn1 H1 Hn2 H2 Hle.
  destruct (attempt_transfer_healthy fromID toID transferAmt b1 b2 w)
    as (w' & Hrun & Ht & Hp & _ & _ & evs & Hlog & Hn); [done..|].
  exists w', evs. split; [|done].
  unfold ExecuteTx, transferUnit. destruct budget; cbn [run_attempts];
    unfold bind; by rewrite Hrun.
Qed.

(** X15: a balance below [transferAmt] is not retried.  On a store that
    answers, when the source row holds less than [transferAmt] the executor
    makes one attempt, rolls it back and returns the low-balance error of
    [transferFunds]; the committed rows are as before. *)
Theorem X15_low_balance_not_retried budget fromID toID b w :
  healthy w → table w !! fromID = Some b → b < transferAmt →
  ∃ w' evs,
    ExecuteTx budget (transferUnit fromID toID) w =
      (Some (ErrLowBalance fromID b transferAmt), w') ∧
    table w' = table w ∧ pending w' = None ∧
    log w' = log w ++ evs ∧ attempts_in evs = 1%nat.
Proof.
  intros Hf Hb Hlt.
  destruct (attempt_log (transferUnit fromID toID) w (transferUnit_appends _ _))
    as (evs & Hlog & Hn).
  destruct (attempt_all_or_nothing (transferUnit fromID toID)) with (w := w)
    as [Hp Ht].
  { intros w0. apply transferFunds_tx_table. }
  assert (Hrun : (attempt (transferUnit fromID toID) w).1 =
                 Some (ErrLowBalance fromID b transferAmt)).
  { unfold attempt. unfold bind at 1.
    pose proof (view_tx_begin w) as Hv1.
    assert (Hf1 : healthy (begin w).2) by done.
    destruct (begin w) as [[] w1]. cbn [snd] in *. unfold bind at 1.
    unfold transferUnit.
    destruct (transferFunds_rejects DBTx w1 fromID toID transferAmt) as (w2 & -> & _).
    { rewrite (loaded_balance_healthy _ _ _ b); [done..|by rewrite Hv1]. }
    rewrite (loaded_balance_healthy _ _ _ b); [|done|by rewrite Hv1].
    rewrite (First_healthy _ _ _ b); [|done|by rewrite Hv1].
    by unfold rollback; run. }
  destruct (attempt (transferUnit fromID toID) w) as [r w'] eqn:Hatt.
  cbn [fst snd] in *. subst r.
  exists w', evs. split; [|split; [by apply Ht|done]].
  unfold ExecuteTx. destruct budget; cbn [run_attempts]; unfold bind;
    by rewrite Hatt.
Qed.

Lemma X15_low_balance_not_retried_witness :
  ∃ w' evs,
    ExecuteTx 3 (transferUnit idA idB) (two_accounts 50 100) =
      (Some (ErrLowBalance idA 50 transferAmt), w') ∧
    table w' = table (two_accounts 50 100) ∧ pending w' = None ∧
    log w' = log (two_accounts 50 100) ++ evs ∧ attempts_in evs = 1%nat.
Proof.
  apply (X15_low_balance_not_retried 3 idA idB 50 (two_accounts 50 100)).
  - reflexivity.
  - reflexivity.
  - unfold transferAmt. lia.
Defined.

Lemma faults_set_faults fs w : faults (set_faults fs w) = fs.
Proof. done. Qed.

Lemma acctIDs_set_faults fs w : acctIDs (set_faults fs w) = acctIDs w.
Proof. done. Qed.

#[local] Hint Rewrite faults_set_faults acctIDs_set_faults : world.

(** A transfer whose four calls the store answers, with more answers to
    come: it returns [nil] and has used up four answers. *)
Lemma transferFunds_answered h w fromID toID amount b1 b2 fs :
  faults w = None :: None :: None :: None :: fs →
  has_account h w fromID b1 → has_account h w toID b2 → amount <= b1 →
  ∃ w',
    transferFunds h fromID toID amount w = (None, w') ∧
    faults w' = fs ∧ acctIDs w' = acctIDs w.
Proof.
  intros Hf [Hn1 H1] [Hn2 H2] Hle.
  assert (Hu : usable h w = true) by eauto using view_usable.
  unfold transferFunds. unfold bind at 1.
  rewrite (First_ok _ _ _ b1 _ _ Hf) by done. cbn [fst snd].
  unfold bind at 1.
  rewrite (First_ok _ _ _ b2 _ (None :: None :: fs))
    by (by autorewrite with world). cbn [fst snd ID Balance].
  destruct (Z.ltb_spec b1 amount) as [?|_]; [lia|].
  unfold bind at 1.
  rewrite (Save_ok _ _ _ (None :: fs)); [|done|by autorewrite with world|done].
  unfold bind at 1.
  rewrite (Save_ok _ _ _ fs);
    [|by autorewrite with world|by autorewrite with world|done].
  eexists. split; [reflexivity|]. by autorewrite with world.
Qed.

(** An attempt whose commit the store refuses with a conflict leaves
    nothing behind but the used-up answers. *)
Lemma attempt_transfer_conflict fromID toID amount b1 b2 w fs :
  faults w = one_transfer_conflict ++ fs →
  fromID ≠ uuid_Nil → table w !! fromID = Some b1 →
  toID ≠ uuid_Nil → table w !! toID = Some b2 →
  amount <= b1 →
  ∃ w',
    attempt (λ tx, transferFunds tx fromID toID amount) w = (Some ErrSerialization, w') ∧
    table w' = table w ∧ faults w' = fs ∧
    ∃ evs, log w' = log w ++ evs ∧ attempts_in evs = 1%nat.
Proof.
  intros Hf Hn1 H1 Hn2 H2 Hle.
  destruct (attempt_log (λ tx, transferFunds tx fromID toID amount) w)
    as (evs & Hlog & Hn).
  { intros tx w0. destruct (transferFunds_log tx fromID toID amount w0)
      as (evs0 & Hl & Hon & _). exists evs0. eauto using calls_on_attempts. }
  destruct (attempt _ w) as [r w'] eqn:Hrun. cbn [snd] in Hlog.
  unfold attempt in Hrun. unfold bind at 1 in Hrun.
  pose proof (view_tx_begin w) as Hv1.
  assert (Hf1 : faults (begin w).2 = faults w) by done.
  assert (Ht1 : table (begin w).2 = table w) by done.
  destruct (begin w) as [[] w1]. cbn [snd] in *.
  unfold bind at 1 in Hrun.
  destruct (transferFunds_answered DBTx w1 fromID toID amount b1 b2
              (Some ErrSerialization :: fs))
    as (w2 & Hrun2 & Hf2 & _);
    [by rewrite Hf1, Hf|split; by rewrite ?Hv1..|done|].
  pose proof (transferFunds_tx_table fromID toID amount w1) as Ht2.
  rewrite Hrun2 in Hrun, Ht2. cbn [fst snd] in *.
  revert Hrun. unfold commit. run. rewrite Hf2. cbn.
  intros [= <- <-]. eexists. split; [reflexivity|]. cbn.
  split; [congruence|]. split; [done|]. by exists evs.
Qed.

(** X16: retried attempts leave no trace.  When the store refuses the
    commit of the first [k] attempts with a retryable conflict and answers
    everything after, and [k] is within the budget, the executor makes
    [k + 1] attempts and returns [nil], and the committed rows are exactly
    those of one transfer. *)
Theorem X16_conflicts_then_commit k budget fromID toID b1 b2 w :
  (k ≤ budget)%nat → faults w = commit_conflicts k →
  fromID ≠ uuid_Nil → table w !! fromID = Some b1 →
  toID ≠ uuid_Nil → table w !! toID = Some b2 →
  transferAmt <= b1 →
  ∃ w' evs,
    ExecuteTx budget (transferUnit fromID toID) w = (None, w') ∧
    table w' =
      <[toID := GoInt.add b2 transferAmt]>
        (<[fromID := GoInt.sub b1 transferAmt]> (table w)) ∧
    log w' = log w ++ evs ∧ attempts_in evs = S k.
Proof.
  unfold ExecuteTx, transferUnit.
  revert budget w. induction k as [|k IH]; intros budget w Hk Hf Hn1 H1 Hn2 H2 Hle.
  - destruct (attempt_transfer_healthy fromID toID transferAmt b1 b2 w)
      as (w' & Hrun & Ht & Hp & _ & _ & evs & Hlog & Hn); [done..|].
    exists w', evs. split; [|done].
    destruct budget; cbn [run_attempts]; unfold bind; by rewrite Hrun.
  - destruct budget as [|budget]; [lia|].
    destruct (attempt_transfer_conflict fromID toID transferAmt b1 b2 w
                (commit_conflicts k))
      as (w1 & Hrun & Ht & Hf1 & evs1 & Hlog1 & Hn1'); [done..|].
    destruct (IH budget w1) as (w' & evs & Hrun' & Ht' & Hlog & Hn);
      [lia|done|done|congruence|done|congruence|done|].
    exists w', (evs1 ++ evs). cbn [run_attempts]. unfold bind. rewrite Hrun. cbn.
    split; [exact Hrun'|]. split; [by rewrite Ht', Ht|].
    split; [by rewrite Hlog, Hlog1, app_assoc|].
    rewrite attempts_in_app. lia.
Qed.

Lemma X16_conflicts_then_commit_witness :
  ∃ w' evs,
    ExecuteTx 3 (transferUnit idA idB)
      (set_faults (commit_conflicts 2) (two_accounts 500 100)) = (None, w') ∧
    table w' =
      <[idB := GoInt.add 100 transferAmt]>
        (<[idA := GoInt.sub 500 transferAmt]> (table (two_accounts 500 100))) ∧
    log w' = log (two_accounts 500 100) ++ evs ∧ attempts_in evs = 3%nat.
Proof.
  apply (X16_conflicts_then_commit 2 3 idA idB 500 100
           (set_faults (commit_conflicts 2) (two_accounts 500 100))).
  - lia.
  - reflexivity.
  - discriminate.
  - reflexivity.
  - discriminate.
  - reflexivity.
  - unfold transferAmt. lia.
Defined.

(** ** [main] from start to end *)

Lemma printBalances_frame h w :
  same_rows w (printBalances h w).2 ∧
  faults (printBalances h w).2 = tail (faults w).
Proof.
  destruct (printBalances h w) as [[] w'] eqn:Hrun. cbn [snd].
  unfold printBalances, Find, bind in Hrun.
  pose proof (enter_same_rows h SFind w) as Hs.
  pose proof (enter_faults h SFind w) as Hf.
  destruct (enter h SFind w) as [[e|] w1]; cbn [fst snd] in *;
    revert Hrun; run; intros [= <-]; (split; [|done]);
    by destruct Hs as (?&?&?).
Qed.

Lemma report_frame err w :
  same_rows w (report err w).2 ∧ faults (report err w).2 = faults w.
Proof. destruct err; cbn; by repeat split. Qed.

Lemma rand_Intn_frame n w :
  same_rows w (rand_Intn n w).2 ∧ faults (rand_Intn n w).2 = faults w.
Proof. unfold rand_Intn. run. by repeat split. Qed.

(** X17: [main] panics exactly when no id is on [acctIDs] once the seeding
    is over, at the index expression [acctIDs[0]]; in every other case it
    runs to its end - the second index, drawn by [rand.Intn(len(acctIDs))],
    is always in range - whatever the store answers. *)
Theorem X17_main_panics_iff_no_ids budget w :
  ((main budget w).1 = Panicked ↔
   acctIDs (ExecuteTx budget (seedUnit DBConn) w).2 = []) ∧
  ((main budget w).1 = Exited ↔
   acctIDs (ExecuteTx budget (seedUnit DBConn) w).2 ≠ []).
Proof.
  destruct (main budget w) as [o wf] eqn:Hrun. cbn [fst].
  unfold main in Hrun. unfold bind at 1 in Hrun.
  destruct (ExecuteTx budget (seedUnit DBConn) w) as [err w1]. cbn [snd].
  unfold bind at 1 in Hrun.
  destruct (report_frame err w1) as [(_ & _ & Ha2) _].
  destruct (report err w1) as [[] w2]. cbn [snd] in *.
  unfold bind at 1 in Hrun.
  destruct (printBalances_frame DBConn w2) as [(_ & _ & Ha3) _].
  destruct (printBalances DBConn w2) as [[] w3]. cbn [snd] in *.
  unfold bind at 1 in Hrun. unfold get at 1 in Hrun.
  rewrite Ha3, Ha2 in Hrun.
  destruct (acctIDs w1) as [|fromID ids] eqn:Hids; cbn [lookup list_lookup] in Hrun.
  { injection Hrun as <- _. by split. }
  rewrite <- Hids in Hrun. unfold bind at 1 in Hrun.
  pose proof (rand_Intn_range (Z.of_nat (length (acctIDs w1))) w3) as Hk.
  destruct (rand_Intn (Z.of_nat (length (acctIDs w1))) w3) as [k w4].
  cbn [fst] in Hk.
  destruct (lookup_lt_is_Some_2 (acctIDs w1) (Z.to_nat k)) as [toID HtoID].
  { rewrite Hids in Hk |- *. cbn [length] in *. lia. }
  rewrite HtoID in Hrun.
  revert Hrun. unfold bind.
  destruct (ExecuteTx budget (transferUnit fromID toID) w4) as [err' w5].
  destruct (report err' w5) as [[] w6].
  destruct (printBalances DBConn w6) as [[] w7].
  destruct (deleteAccounts DBConn w7) as [err'' w8].
  intros [= <- _]. by split.
Qed.

Lemma Create_healthy_error h a w e :
  healthy w → usable h w = true → (Create h a w).1 = Some e → e = ErrDuplicateKey.
Proof.
  intros Hf Hu. unfold Create. unfold bind at 1. rewrite enter_healthy by done.
  destruct (ID a =? uuid_Nil)%N; run; destruct (view h _ !! _); cbn; congruence.
Qed.

Lemma insertRows_loop_error h n w e :
  healthy w → usable h w = true →
  (insertRows_loop h n w).1 = Some e → e = ErrDuplicateKey.
Proof.
  unfold healthy. revert w. induction n as [|n IH]; intros w Hf Hu; [done|].
  destruct (insertRows_loop_step h n w)
    as (a & w2 & _ & _ & _ & Hu2 & Hf2 & _ & _ & ->).
  pose proof (Create_healthy_error h a w2 e) as He.
  pose proof (Create_faults h a w2) as Hf3. rewrite Hf2, Hf in Hf3.
  pose proof (Create_usable h a w2) as Hu3.
  destruct (Create h a w2) as [[e'|] w3]; cbn [fst snd] in *.
  - intros Hr. apply He; [congruence|congruence|done].
  - apply IH; [done|]. rewrite usable_set_acctIDs. congruence.
Qed.

Lemma insertRows_loop_ids h n w i :
  i ∈ acctIDs (insertRows_loop h n w).2 → i ∈ acctIDs w ∨ i ≠ uuid_Nil.
Proof.
  revert w. induction n as [|n IH]; intros w; [by left|].
  destruct (insertRows_loop_step h n w) as (a & w2 & Hid & _ & Ha2 & _ & _ & _ & _ & ->).
  destruct (Create_result h a w2 Hid) as [(Hok & _ & _ & Hids)|(Hko & Hs)];
    destruct (Create h a w2) as [[e'|] w3]; cbn [fst snd] in *; try done.
  - intros Hin. destruct (IH _ Hin) as [Hin'|?]; [|by right].
    cbn in Hin'. rewrite Hids, Ha2 in Hin'.
    apply elem_of_app in Hin' as [?|Hin']; [by left|].
    apply list_elem_of_singleton in Hin' as ->. by right.
  - destruct Hs as (_ & _ & ->). rewrite Ha2. by left.
Qed.

(** The seeding as [main] runs it, on a store that answers: one attempt,
    after which the new rows are committed and their ids are on
    [acctIDs]. *)
Lemma seed_tx_healthy budget w :
  healthy w → acctIDs w = [] →
  healthy (ExecuteTx budget (seedUnit DBConn) w).2 ∧
  pending (ExecuteTx budget (seedUnit DBConn) w).2 = None ∧
  (∀ i, i ∈ acctIDs (ExecuteTx budget (seedUnit DBConn) w).2 →
        i ≠ uuid_Nil ∧ table w !! i = None ∧
        ∃ b, table (ExecuteTx budget (seedUnit DBConn) w).2 !! i = Some b ∧
             transferAmt <= b) ∧
  (∀ i, i ∉ acctIDs (ExecuteTx budget (seedUnit DBConn) w).2 →
        table (ExecuteTx budget (seedUnit DBConn) w).2 !! i = table w !! i).
Proof.
  intros Hf Hnil.
  assert (Hatt : ∃ w3,
    (attempt (seedUnit DBConn) w).2 = w3 ∧
    (∀ e, (attempt (seedUnit DBConn) w).1 = Some e → retryable e = false) ∧
    healthy w3 ∧ pending w3 = None ∧
    (∀ i, i ∈ acctIDs w3 →
       i ≠ uuid_Nil ∧ table w !! i = None ∧
       ∃ b, table w3 !! i = Some b ∧ transferAmt <= b) ∧
    (∀ i, i ∉ acctIDs w3 → table w3 !! i = table w !! i)).
  { destruct (attempt (seedUnit DBConn) w) as [r w3] eqn:Hrun. cbn [fst snd].
    unfold attempt in Hrun. unfold bind at 1 in Hrun.
    assert (Hf1 : healthy (begin w).2) by done.
    assert (Ha1 : acctIDs (begin w).2 = acctIDs w) by done.
    assert (Ht1 : table (begin w).2 = table w) by done.
    assert (Hp1 : pending (begin w).2 = Some ∅) by done.
    destruct (begin w) as [[] w1]. cbn [snd] in *.
    unfold bind at 1 in Hrun. unfold seedUnit, insertRows in Hrun.
    destruct (insertRows_loop_healthy DBConn (Z.to_nat 5) w1 Hf1) as [Hf2 _].
    destruct (insertRows_loop_spec DBConn (Z.to_nat 5) w1)
      as (created & Hacc & _ & _ & _ & Hall & Hframe).
    pose proof (insertRows_loop_ids DBConn (Z.to_nat 5) w1) as Hnn.
    pose proof (insertRows_loop_error DBConn (Z.to_nat 5) w1) as Herr.
    pose proof (insertRows_loop_untouched DBConn (Z.to_nat 5) w1) as Hp2.
    cbn [untouched_by view] in *. rewrite Ha1, Hnil in Hacc, Hnn.
    rewrite Ht1 in Hall, Hframe. cbn [app] in Hacc.
    destruct (insertRows_loop DBConn (Z.to_nat 5) w1) as [[e|] w2];
      cbn [fst snd] in *.
    - exists w3. split; [done|]. revert Hrun. unfold rollback. run.
      intros [= <- <-]. cbn.
      split; [intros e0 [= <-]; by rewrite (Herr e)|].
      split; [done|]. split; [done|]. split.
      + intros i Hi. rewrite Hacc in Hi.
        apply list_elem_of_fmap in Hi as (a & -> & Hin).
        rewrite Forall_forall in Hall.
        destruct (Hall _ Hin) as ((Hlo & _) & Hnone & Hsome).
        split; [|split; [done|eauto]].
        destruct (Hnn (ID a)) as [Hin'|?]; [|by apply elem_of_nil in Hin'|done].
        rewrite Hacc. apply list_elem_of_fmap. eauto.
      + intros i Hi. apply Hframe. by rewrite <- Hacc.
    - exists w3. split; [done|]. revert Hrun. unfold commit. run.
      rewrite Hf2. cbn. rewrite Hp2, Hp1. cbn. intros [= <- <-]. cbn.
      split; [done|]. split; [done|]. split; [done|]. rewrite overlay_empty. split.
      + intros i Hi. rewrite Hacc in Hi.
        apply list_elem_of_fmap in Hi as (a & -> & Hin).
        rewrite Forall_forall in Hall.
        destruct (Hall _ Hin) as ((Hlo & _) & Hnone & Hsome).
        split; [|split; [done|eauto]].
        destruct (Hnn (ID a)) as [Hin'|?]; [|by apply elem_of_nil in Hin'|done].
        rewrite Hacc. apply list_elem_of_fmap. eauto.
      + intros i Hi. apply Hframe. by rewrite <- Hacc. }
  destruct Hatt as (w3 & Hw3 & Hterm & Hrest).
  assert (Hrun : (ExecuteTx budget (seedUnit DBConn) w).2 = w3).
  { unfold ExecuteTx. destruct budget; cbn [run_attempts]; unfold bind;
      destruct (attempt (seedUnit DBConn) w) as [[e|] w3'];
      cbn [fst snd] in *; subst w3'; try done;
      by rewrite (Hterm e eq_refl). }
  by rewrite Hrun.
Qed.

(** X18: on a store that answers, started with an empty [acctIDs], [main]
    leaves the accounts table exactly as it found it, whatever rows were in
    it: every row it seeds is deleted at the end, the transfer it makes
    touches seeded rows only, a seeding cut short by a duplicate key is
    cleaned up as well, and no transaction is left open. *)
Theorem X18_main_restores_table budget w :
  healthy w → acctIDs w = [] →
  table (main budget w).2 = table w ∧ pending (main budget w).2 = None.
Proof.
  intros Hf Hnil.
  destruct (seed_tx_healthy budget w Hf Hnil) as (Hf1 & Hp1 & Hin & Hout).
  destruct (main budget w) as [o wf] eqn:Hrun. cbn [snd].
  unfold main in Hrun. unfold bind at 1 in Hrun.
  destruct (ExecuteTx budget (seedUnit DBConn) w) as [err w1]. cbn [snd] in *.
  unfold bind at 1 in Hrun.
  destruct (report_frame err w1) as [(Ht2 & Hp2 & Ha2) Hf2].
  destruct (report err w1) as [[] w2]. cbn [snd] in *.
  unfold bind at 1 in Hrun.
  destruct (printBalances_frame DBConn w2) as [(Ht3 & Hp3 & Ha3) Hf3].
  destruct (printBalances DBConn w2) as [[] w3]. cbn [snd] in *.
  assert (Hh3 : healthy w3) by (unfold healthy in *; by rewrite Hf3, Hf2, Hf1).
  unfold bind at 1 in Hrun. unfold get at 1 in Hrun.
  rewrite Ha3, Ha2 in Hrun.
  destruct (acctIDs w1 !! 0%nat) as [fromID|] eqn:Hfrom.
  2:{ injection Hrun as _ <-. split; [|congruence].
      rewrite Ht3, Ht2. apply map_eq. intros i. apply Hout.
      destruct (acctIDs w1); [apply not_elem_of_nil|done]. }
  unfold bind at 1 in Hrun.
  destruct (rand_Intn_frame (Z.of_nat (length (acctIDs w1))) w3)
    as [(Ht4 & Hp4 & Ha4) Hf4].
  pose proof (rand_Intn_range (Z.of_nat (length (acctIDs w1))) w3) as Hk.
  destruct (rand_Intn (Z.of_nat (length (acctIDs w1))) w3) as [k w4].
  cbn [fst snd] in *.
  destruct (acctIDs w1 !! Z.to_nat k) as [toID|] eqn:Hto.
  2:{ exfalso. apply lookup_ge_None_1 in Hto. apply lookup_lt_Some in Hfrom. lia. }
  apply list_elem_of_lookup_2 in Hfrom, Hto.
  destruct (Hin _ Hfrom) as (Hn1 & Hnew1 & b1 & Hb1 & Hle1).
  destruct (Hin _ Hto) as (Hn2 & Hnew2 & b2 & Hb2 & _).
  assert (Hh4 : healthy w4) by (unfold healthy in *; by rewrite Hf4).
  destruct (attempt_transfer_healthy fromID toID transferAmt b1 b2 w4)
    as (w5 & Hatt & Ht5 & Hp5 & Hh5 & Ha5 & _);
    [done|done|by rewrite Ht4, Ht3, Ht2|done|by rewrite Ht4, Ht3, Ht2|done|].
  assert (Hexec : ExecuteTx budget (transferUnit fromID toID) w4 = (None, w5)).
  { unfold ExecuteTx, transferUnit. destruct budget; cbn [run_attempts];
      unfold bind; by rewrite Hatt. }
  unfold bind at 1 in Hrun. rewrite Hexec in Hrun.
  unfold bind at 1 in Hrun. cbn [report] in Hrun. unfold ret at 1 in Hrun.
  unfold bind at 1 in Hrun.
  destruct (printBalances_frame DBConn w5) as [(Ht6 & Hp6 & Ha6) Hf6].
  destruct (printBalances DBConn w5) as [[] w6]. cbn [snd] in *.
  assert (Hh6 : healthy w6) by (unfold healthy in *; by rewrite Hf6, Hh5).
  unfold bind at 1 in Hrun.
  pose proof (deleteAccounts_untouched DBConn w6) as Hp7.
  rewrite deleteAccounts_healthy in Hrun, Hp7 by done. cbn [snd untouched_by] in Hp7.
  injection Hrun as _ <-. split; [|congruence].
  change (table ?x) with (view DBConn x) at 1.
  rewrite view_foldr_del_row, view_set_log. cbn [view].
  apply map_eq. intros i. rewrite lookup_foldr_delete.
  rewrite Ha6, Ha5, Ha4, Ha3, Ha2.
  destruct (decide (i ∈ acctIDs w1)) as [Hi|Hi].
  - by destruct (Hin _ Hi) as (_ & -> & _).
  - rewrite Ht6, Ht5, Ht4, Ht3, Ht2.
    rewrite !lookup_insert_ne by congruence. by apply Hout.
Qed.

Lemma X18_main_restores_table_witness :
  table (main 3 (two_accounts 500 100)).2 = table (two_accounts 500 100) ∧
  pending (main 3 (two_accounts 500 100)).2 = None.
Proof.
  apply (X18_main_restores_table 3 (two_accounts 500 100)).
  - reflexivity.
  - reflexivity.
Defined.

(** ** Two more facts on errors and calls *)

(** X19: on a store that answers, [insertRows] returns [nil] or the
    duplicate-key error of a [Create] whose drawn id is already in the
    table, and nothing else. *)
Theorem X19_insertRows_fails_on_duplicates_only h numRows w :
  healthy w → usable h w = true →
  (insertRows h numRows w).1 = None ∨
  (insertRows h numRows w).1 = Some ErrDuplicateKey.
Proof.
  intros Hf Hu. unfold insertRows.
  destruct (insertRows_loop h (Z.to_nat numRows) w).1 as [e|] eqn:Hr; [|by left].
  right. f_equal. by apply (insertRows_loop_error h (Z.to_nat numRows) w e).
Qed.

(** A table that already holds the first id the sample source draws. *)
Lemma X19_insertRows_fails_on_duplicates_only_witness :
  (insertRows DBConn 5 (world0 (<[uuid_New 0 := 7]> ∅))).1 = Some ErrDuplicateKey ∧
  ((insertRows DBConn 5 (world0 (<[uuid_New 0 := 7]> ∅))).1 = None ∨
   (insertRows DBConn 5 (world0 (<[uuid_New 0 := 7]> ∅))).1 = Some ErrDuplicateKey).
Proof.
  split; [reflexivity|].
  apply (X19_insertRows_fails_on_duplicates_only DBConn 5
           (world0 (<[uuid_New 0 := 7]> ∅))).
  - reflexivity.
  - reflexivity.
Defined.

(** X20: when the check of line 40 fails, [transferFunds] has made its two
    reads on the handle it was given and no other call: no [Save] is
    attempted. *)
Theorem X20_rejected_transfer_only_reads h w fromID toID amount :
  loaded_balance h w fromID < amount →
  log (transferFunds h fromID toID amount w).2 =
    log w ++ [EvStmt h (SFirst fromID); EvStmt h (SFirst toID)].
Proof.
  unfold loaded_balance. intros Hlt.
  destruct (transferFunds h fromID toID amount w) as [r w'] eqn:Hrun. cbn [snd].
  unfold transferFunds in Hrun. unfold bind at 1 in Hrun.
  pose proof (First_log h zeroAccount fromID w) as Hl1.
  destruct (First h zeroAccount fromID w) as [[a1 e1] w1]. cbn [fst snd] in *.
  unfold bind at 1 in Hrun.
  pose proof (First_log h zeroAccount toID w1) as Hl2.
  destruct (First h zeroAccount toID w1) as [[a2 e2] w2]. cbn [fst snd] in *.
  destruct (Z.ltb_spec (Balance a1) amount) as [_|?]; [|lia].
  injection Hrun as _ <-. by rewrite Hl2, Hl1, <- app_assoc.
Qed.

Lemma X20_rejected_transfer_only_reads_witness :
  log (transferFunds DBConn idA idB 100 (two_accounts 50 0)).2 =
    log (two_accounts 50 0) ++ [EvStmt DBConn (SFirst idA); EvStmt DBConn (SFirst idB)].
Proof.
  apply (X20_rejected_transfer_only_reads DBConn (two_accounts 50 0) idA idB 100).
  vm_compute. reflexivity.
Defined.
